(** * servicepytan.data: the DataService facade over the ServiceTitan API

    A shallow embedding of [src/servicepytan/data.py].  Every method of
    [DataService] builds a query mapping and hands it to a collaborator
    ([servicepytan.requests.Endpoint]) that is not part of the module; the
    collaborator, the date formatter and the timezone lookup are therefore
    interfaces here, and every result below holds for all their
    implementations.

    Python state is explicit: a store of mapping objects (so that a mapping
    passed in by a caller is the very object the method writes to), the state
    of the outside world the collaborator talks to, the sequence of
    collaborator calls made so far, and the lines printed so far.  Exceptions
    are an outcome next to the state, so what was written before a raise
    stays written. *)

From Stdlib Require Import ZArith.
From stdpp Require Import base option list strings gmap fin_maps pretty.

Set Warnings "-register-all".
Open Scope string_scope.
Open Scope list_scope.

(** ** Python values *)

(** Python floats are kept abstract: only what [+] and truthiness need. *)
Class FloatOps := {
  float : Type;
  float_add : float → float → float;
  (** [float(n)] for an int [n]; [None] is OverflowError *)
  float_of_int : Z → option float;
  float_is_zero : float → bool
}.

Section values.
Context `{FloatOps}.

(** The values that travel through the facade: filter values, ids, records
    decoded from JSON.  A [VDict] lists the items of a dict with string keys
    in insertion order; no key occurs twice, and lookup takes the first
    binding. *)
Inductive Value :=
| VNone
| VBool (b : bool)
| VInt (z : Z)
| VFloat (f : float)
| VStr (s : string)
| VList (l : list Value)
| VDict (kvs : list (string * Value)).

Inductive Exn :=
| KeyError (k : string)
| TypeError
| IndexError
| OverflowError
(** raised by a collaborator: transport, authentication, HTTP status, ... *)
| ExternalError (msg : string)
(** a reference to a mapping object that is not in the store; no Python
    program can produce one *)
| DanglingReference.

Inductive Outcome (A : Type) :=
| Ok (a : A)
| Raise (e : Exn).
Global Arguments Ok {A} a.
Global Arguments Raise {A} e.

Definition is_ok {A} (o : Outcome A) : bool :=
  match o with Ok _ => true | Raise _ => false end.

(** [bool(v)], as used by [if app_guid:] *)
Definition truthy (v : Value) : bool :=
  match v with
  | VNone => false
  | VBool b => b
  | VInt z => negb (z =? 0)%Z
  | VFloat f => negb (float_is_zero f)
  | VStr s => negb (String.eqb s "")
  | VList l => match l with [] => false | _ => true end
  | VDict kvs => match kvs with [] => false | _ => true end
  end.

Definition int_of_bool (b : bool) : Z := if b then 1%Z else 0%Z.

Definition to_float (z : Z) : Outcome float :=
  match float_of_int z with
  | Some f => Ok f
  | None => Raise OverflowError
  end.

(** [a + b].  bool is a subclass of int; int and float mix by converting the
    int; str and list concatenate; everything else is a TypeError. *)
Definition py_add (a b : Value) : Outcome Value :=
  let int_int x y := Ok (VInt (x + y)%Z) in
  let int_float x g :=
    match to_float x with Ok f => Ok (VFloat (float_add f g)) | Raise e => Raise e end in
  let float_int f y :=
    match to_float y with Ok g => Ok (VFloat (float_add f g)) | Raise e => Raise e end in
  match a, b with
  | VInt x, VInt y => int_int x y
  | VInt x, VBool y => int_int x (int_of_bool y)
  | VBool x, VInt y => int_int (int_of_bool x) y
  | VBool x, VBool y => int_int (int_of_bool x) (int_of_bool y)
  | VInt x, VFloat g => int_float x g
  | VBool x, VFloat g => int_float (int_of_bool x) g
  | VFloat f, VInt y => float_int f y
  | VFloat f, VBool y => float_int f (int_of_bool y)
  | VFloat f, VFloat g => Ok (VFloat (float_add f g))
  | VStr s, VStr t => Ok (VStr (s +:+ t))
  | VList l, VList k => Ok (VList (l ++ k))
  | _, _ => Raise TypeError
  end.

Fixpoint assoc (k : string) (kvs : list (string * Value)) : option Value :=
  match kvs with
  | [] => None
  | (k', v) :: rest => if String.eqb k k' then Some v else assoc k rest
  end.

(** [v[k]] for a string key [k] *)
Definition py_getitem (v : Value) (k : string) : Outcome Value :=
  match v with
  | VDict kvs =>
      match assoc k kvs with
      | Some x => Ok x
      | None => Raise (KeyError k)
      end
  | _ => Raise TypeError
  end.

Fixpoint chars (s : string) : list Value :=
  match s with
  | EmptyString => []
  | String c rest => VStr (String c EmptyString) :: chars rest
  end.

(** the elements [for x in v] runs through *)
Definition py_iter (v : Value) : Outcome (list Value) :=
  match v with
  | VList l => Ok l
  | VStr s => Ok (chars s)
  | VDict kvs => Ok (map (λ kv, VStr (fst kv)) kvs)
  | _ => Raise TypeError
  end.

(** [l[0]] on a list *)
Definition py_first (l : list Value) : Outcome Value :=
  match l with
  | x :: _ => Ok x
  | [] => Raise IndexError
  end.

(** [sep.join(xs)]: every element must be a str *)
Fixpoint py_join (sep : string) (xs : list Value) : Outcome string :=
  match xs with
  | [] => Ok ""
  | VStr s :: rest =>
      match rest with
      | [] => Ok s
      | _ => match py_join sep rest with
             | Ok t => Ok (s +:+ sep +:+ t)
             | Raise e => Raise e
             end
      end
  | _ :: _ => Raise TypeError
  end.

Definition is_str (v : Value) : bool :=
  match v with VStr _ => true | _ => false end.

End values.

(** ** The collaborators *)

(** The types the facade only passes along: the connection configuration, the
    timezone it resolves to, the date inputs ("string or datetime object")
    that the formatter accepts, and the state of the remote service. *)
Class Carriers := {
  Conn : Type;
  Timezone : Type;
  DateLike : Type;
  World : Type
}.

(** The [version] argument of [Endpoint]: the source passes the int [2] and
    the str ["3"]. *)
Inductive Version :=
| VerInt (n : Z)
| VerStr (s : string).

(** [str(version)], the text that ends up in the request path *)
Definition version_text (v : Version) : string :=
  match v with
  | VerInt n => pretty n
  | VerStr s => s
  end.

Section collaborators.
Context `{FloatOps} `{Carriers}.

(** [Endpoint(folder, endpoint, version=..., conn=...)], with the arguments as
    the call site wrote them: [ep_version] is [None] where the call passes no
    [version]. *)
Record Endpoint := {
  ep_folder : string;
  ep_endpoint : string;
  ep_version : option Version;
  ep_conn : Conn
}.

(** Modelled from the spec: the default of the [version] parameter of
    [Endpoint.__init__] in [servicepytan.requests], which is not part of this
    module.  The spec gives the collaborator as
    [Endpoint(folder, endpoint, version, conn)] and says that every operation
    but [calls between] uses API version 2. *)
Definition Endpoint_default_version : Version := VerInt 2.

(** the version an endpoint object requests with *)
Definition api_version (ep : Endpoint) : string :=
  version_text (default Endpoint_default_version (ep_version ep)).

(** The response object of [get_one_raw]; only [.content] is read. *)
Record RawResponse := { content : string }.

(** What [get_all] leaves behind: its outcome, the query mapping as it leaves
    it (it is handed the mapping object itself) and the world afterwards. *)
Record GetAllReply := {
  reply_outcome : Outcome (list Value);
  reply_query : gmap string Value;
  reply_world : World
}.

Class Collaborator := {
  get_timezone_by_file : Conn → Outcome Timezone;
  _convert_date_to_api_format : DateLike → Timezone → string;
  Endpoint_get_all : Endpoint → gmap string Value → World → GetAllReply;
  Endpoint_get_one_raw : Endpoint → Value → World → Outcome RawResponse * World;
  Endpoint_update :
    Endpoint → Value → Value → string → World → Outcome Value * World
}.

(** One call of a collaborator method, with what it answered. *)
Inductive Event :=
| EvGetAll (ep : Endpoint) (query : gmap string Value)
    (reply : Outcome (list Value))
| EvGetOneRaw (ep : Endpoint) (id : Value) (reply : Outcome RawResponse)
| EvUpdate (ep : Endpoint) (id : Value) (json_payload : Value)
    (request_type : string) (reply : Outcome Value).

Definition ev_endpoint (ev : Event) : Endpoint :=
  match ev with
  | EvGetAll ep _ _ | EvGetOneRaw ep _ _ | EvUpdate ep _ _ _ _ => ep
  end.

(** the query mapping of a paged fetch *)
Definition ev_query (ev : Event) : option (gmap string Value) :=
  match ev with
  | EvGetAll _ q _ => Some q
  | _ => None
  end.

(** a paged fetch, as the pair of the endpoint and the query it was given *)
Definition ev_fetch (ev : Event) : option (Endpoint * gmap string Value) :=
  match ev with
  | EvGetAll ep q _ => Some (ep, q)
  | _ => None
  end.

(** the records a paged fetch returned *)
Definition ev_records (ev : Event) : list Value :=
  match ev with
  | EvGetAll _ _ (Ok recs) => recs
  | _ => []
  end.

Definition ev_answered (ev : Event) : bool :=
  match ev with
  | EvGetAll _ _ r => is_ok r
  | EvGetOneRaw _ _ r => is_ok r
  | EvUpdate _ _ _ _ r => is_ok r
  end.

(** ** State and the monad of method bodies *)

Record State := {
  (** the mapping objects, by reference *)
  heap : gmap nat (gmap string Value);
  world : World;
  (** the collaborator calls so far, oldest first *)
  calls : list Event;
  (** the lines printed so far, oldest first *)
  stdout : list string
}.

Definition M (A : Type) : Type := State → Outcome A * State.

Definition ret {A} (a : A) : M A := λ st, (Ok a, st).

Definition raise {A} (e : Exn) : M A := λ st, (Raise e, st).

Definition bind {A B} (m : M A) (k : A → M B) : M B :=
  λ st, match m st with
        | (Ok a, st') => k a st'
        | (Raise e, st') => (Raise e, st')
        end.

Definition lift {A} (o : Outcome A) : M A := λ st, (o, st).

End collaborators.

Notation "'let!' x ':=' m 'in' k" := (bind m (λ x, k))
  (at level 10, x name, m at level 100, k at level 200,
   format "'[v' 'let!'  x  ':='  m  'in' '/' k ']'").
Notation "m ';;' k" := (bind m (λ _, k))
  (at level 100, k at level 200, right associativity).

Section primitives.
Context `{FloatOps} `{Carriers} `{!Collaborator}.

(** a dict display [{...}]: a new mapping object *)
Definition new_dict (d : gmap string Value) : M nat :=
  λ st,
    let l := fresh (dom (heap st)) in
    (Ok l, {| heap := <[l := d]> (heap st); world := world st;
              calls := calls st; stdout := stdout st |}).

(** [options[k] = v] *)
Definition setitem (l : nat) (k : string) (v : Value) : M unit :=
  λ st,
    match heap st !! l with
    | Some d =>
        (Ok tt, {| heap := <[l := <[k := v]> d]> (heap st); world := world st;
                   calls := calls st; stdout := stdout st |})
    | None => (Raise DanglingReference, st)
    end.

(** [print(line)] *)
Definition print (line : string) : M unit :=
  λ st, (Ok tt, {| heap := heap st; world := world st; calls := calls st;
                   stdout := stdout st ++ [line] |}).

(** [ep.get_all(options)] on the mapping object [l] *)
Definition get_all (ep : Endpoint) (l : nat) : M (list Value) :=
  λ st,
    match heap st !! l with
    | Some q =>
        let r := Endpoint_get_all ep q (world st) in
        (reply_outcome r,
         {| heap := <[l := reply_query r]> (heap st);
            world := reply_world r;
            calls := calls st ++ [EvGetAll ep q (reply_outcome r)];
            stdout := stdout st |})
    | None => (Raise DanglingReference, st)
    end.

(** [ep.get_one_raw(id)] *)
Definition get_one_raw (ep : Endpoint) (id : Value) : M RawResponse :=
  λ st,
    let '(r, w) := Endpoint_get_one_raw ep id (world st) in
    (r, {| heap := heap st; world := w;
           calls := calls st ++ [EvGetOneRaw ep id r]; stdout := stdout st |}).

(** [ep.update(id, json_payload=..., request_type=...)] *)
Definition update (ep : Endpoint) (id json_payload : Value)
    (request_type : string) : M Value :=
  λ st,
    let '(r, w) := Endpoint_update ep id json_payload request_type (world st) in
    (r, {| heap := heap st; world := w;
           calls := calls st ++ [EvUpdate ep id json_payload request_type r];
           stdout := stdout st |}).

(** [for x in xs: acc = body(acc, x)]: a loop whose body updates the local
    variable [acc] *)
Fixpoint for_in {A B} (xs : list A) (acc : B) (body : B → A → M B) : M B :=
  match xs with
  | [] => ret acc
  | x :: rest => let! acc' := body acc x in for_in rest acc' body
  end.

End primitives.

(** ** The methods of [DataService] *)

Section DataService.
Context `{FloatOps} `{Carriers} `{!Collaborator}.

Record DataService := {
  conn : Conn;
  timezone : Timezone
}.

(** [DataService.__init__] *)
Definition DataService_init (conn : Conn) : M DataService :=
  let! tz := lift (get_timezone_by_file conn) in
  ret {| conn := conn; timezone := tz |}.

(** [Endpoint(folder, endpoint, conn=self.conn)] and
    [Endpoint(folder, endpoint, version=v, conn=self.conn)] *)
Definition mk_endpoint (self : DataService) (folder endpoint : string)
    (version : option Version) : Endpoint :=
  {| ep_folder := folder; ep_endpoint := endpoint; ep_version := version;
     ep_conn := conn self |}.

(** [_convert_date_to_api_format(d, self.timezone)] *)
Definition api_date (self : DataService) (d : DateLike) : Value :=
  VStr (_convert_date_to_api_format d (timezone self)).

(** a dict display: later items win *)
Definition dict_of (items : list (string * Value)) : gmap string Value :=
  fold_left (λ d kv, <[kv.1 := kv.2]> d) items ∅.

Definition unbounded_warning (folder endpoint : string) : string :=
  "WARNING: You have not put any options in so this will call EVERYTHING! Endpoint: "
  +:+ folder +:+ ", " +:+ endpoint.

(** [options] is a reference to a mapping object, or [None]; an omitted
    [version] is [None]. *)
Definition get_api_data (self : DataService) (folder endpoint : string)
    (options : option nat) (version : option Version) : M (list Value) :=
  let version := default (VerInt 2) version in
  let! options :=
    match options with
    | None =>
        let! fresh_options := new_dict ∅ in
        print (unbounded_warning folder endpoint);;
        ret fresh_options
    | Some l => ret l
    end in
  get_all (mk_endpoint self folder endpoint (Some version)) options.

Definition get_api_data_between (self : DataService) (folder endpoint : string)
    (start_date end_date : DateLike) (date_filter_modifier : option string)
    (options : option nat) (version : option Version) : M (list Value) :=
  let date_filter_modifier := default "completed" date_filter_modifier in
  let version := default (VerInt 2) version in
  let! options :=
    match options with
    | None => new_dict ∅
    | Some l => ret l
    end in
  setitem options (date_filter_modifier +:+ "OnOrAfter") (api_date self start_date);;
  setitem options (date_filter_modifier +:+ "Before") (api_date self end_date);;
  get_api_data self folder endpoint (Some options) (Some version).

(** [if app_guid: options["externalDataApplicationGuid"] = app_guid] *)
Definition set_app_guid (options : nat) (app_guid : Value) : M unit :=
  if truthy app_guid
  then setitem options "externalDataApplicationGuid" app_guid
  else ret tt.

Definition default_job_status : list Value :=
  [VStr "Completed"; VStr "Scheduled"; VStr "InProgress"; VStr "Dispatched"].

Definition get_jobs_completed_between (self : DataService)
    (start_date end_date : DateLike) (job_status : option (list Value))
    (app_guid : Value) : M (list Value) :=
  let job_status := default default_job_status job_status in
  for_in job_status [] (λ data status,
    let! options := new_dict (dict_of [
      ("jobStatus", status);
      ("completedOnOrAfter", api_date self start_date);
      ("completedBefore", api_date self end_date)]) in
    set_app_guid options app_guid;;
    let! page := get_all (mk_endpoint self "jpm" "jobs" None) options in
    ret (data ++ page)).

Definition get_jobs_created_between (self : DataService)
    (start_date end_date : DateLike) (app_guid : Value) : M (list Value) :=
  let! options := new_dict (dict_of [
    ("createdOnOrAfter", api_date self start_date);
    ("createdBefore", api_date self end_date)]) in
  set_app_guid options app_guid;;
  get_all (mk_endpoint self "jpm" "jobs" None) options.

Definition default_appointment_status : list Value :=
  [VStr "Scheduled"; VStr "Dispatched"; VStr "Working"; VStr "Done"].

Definition get_appointments_between (self : DataService)
    (start_date end_date : DateLike) (appointment_status : option (list Value))
    : M (list Value) :=
  let appointment_status :=
    default default_appointment_status appointment_status in
  for_in appointment_status [] (λ data status,
    let! options := new_dict (dict_of [
      ("status", status);
      ("startsOnOrAfter", api_date self start_date);
      ("startsBefore", api_date self end_date)]) in
    let! page := get_all (mk_endpoint self "jpm" "appointments" None) options in
    ret (data ++ page)).

Definition get_sold_estimates_between (self : DataService)
    (start_date end_date : DateLike) : M (list Value) :=
  let! options := new_dict (dict_of [
    ("active", VStr "True");
    ("soldAfter", api_date self start_date);
    ("soldBefore", api_date self end_date)]) in
  get_all (mk_endpoint self "sales" "estimates" None) options.

Definition get_total_sales_between (self : DataService)
    (start_date end_date : DateLike) : M Value :=
  let! data := get_sold_estimates_between self start_date end_date in
  for_in data (VInt 0) (λ sales row,
    let! items := lift (py_getitem row "items") in
    let! skus := lift (py_iter items) in
    for_in skus sales (λ sales sku,
      let! total := lift (py_getitem sku "total") in
      lift (py_add sales total))).

Definition get_purchase_orders_created_between (self : DataService)
    (start_date end_date : DateLike) : M (list Value) :=
  let! options := new_dict (dict_of [
    ("createdOnOrAfter", api_date self start_date);
    ("createdBefore", api_date self end_date)]) in
  get_all (mk_endpoint self "inventory" "purchase-orders" None) options.

Definition get_jobs_modified_between (self : DataService)
    (start_date end_date : DateLike) (app_guid : Value) : M (list Value) :=
  let! options := new_dict (dict_of [
    ("modifiedOnOrAfter", api_date self start_date);
    ("modifiedBefore", api_date self end_date)]) in
  set_app_guid options app_guid;;
  let! data := get_all (mk_endpoint self "jpm" "jobs" None) options in
  ret data.

Definition get_employees (self : DataService) (active : option Value)
    : M (list Value) :=
  let active := default (VStr "True") active in
  let! options := new_dict (dict_of [("active", active)]) in
  get_all (mk_endpoint self "settings" "employees" None) options.

Definition get_technicians (self : DataService) (active : option Value)
    : M (list Value) :=
  let active := default (VStr "True") active in
  let! options := new_dict (dict_of [("active", active)]) in
  get_all (mk_endpoint self "settings" "technicians" None) options.

Definition get_tag_types (self : DataService) (active : option Value)
    : M (list Value) :=
  let active := default (VStr "True") active in
  let! options := new_dict (dict_of [("active", active)]) in
  get_all (mk_endpoint self "settings" "tag-types" None) options.

Definition get_business_units (self : DataService) (active : option Value)
    : M (list Value) :=
  let active := default (VStr "True") active in
  let! options := new_dict (dict_of [("active", active)]) in
  get_all (mk_endpoint self "settings" "business-units" None) options.

Definition get_job_types (self : DataService) (active : option Value)
    : M (list Value) :=
  let active := default (VStr "Any") active in
  let! options := new_dict (dict_of [("active", active)]) in
  get_all (mk_endpoint self "jpm" "job-types" None) options.

Definition get_calls_between (self : DataService)
    (start_date end_date : DateLike) : M (list Value) :=
  let! options := new_dict (dict_of [
    ("createdOnOrAfter", api_date self start_date);
    ("createdBefore", api_date self end_date)]) in
  get_all (mk_endpoint self "telecom" "calls" (Some (VerStr "3"))) options.

Definition get_bookings_between (self : DataService)
    (start_date end_date : DateLike) : M (list Value) :=
  let! options := new_dict (dict_of [
    ("createdOnOrAfter", api_date self start_date);
    ("createdBefore", api_date self end_date)]) in
  get_all (mk_endpoint self "crm" "bookings" None) options.

Definition get_payments_between (self : DataService)
    (start_date end_date : DateLike) : M (list Value) :=
  let! options := new_dict (dict_of [
    ("paidOnAfter", api_date self start_date);
    ("paidOnBefore", api_date self end_date)]) in
  get_all (mk_endpoint self "accounting" "payments" None) options.

Definition get_invoices_between (self : DataService)
    (start_date end_date : DateLike) : M (list Value) :=
  let! options := new_dict (dict_of [
    ("invoicedOnOrAfter", api_date self start_date);
    ("invoicedOnBefore", api_date self end_date)]) in
  get_all (mk_endpoint self "accounting" "invoices" None) options.

Definition get_invoices_by_id (self : DataService) (ids : list Value)
    : M (list Value) :=
  let! joined := lift (py_join "," ids) in
  let! options := new_dict (dict_of [("ids", VStr joined)]) in
  get_all (mk_endpoint self "accounting" "invoices" None) options.

Definition get_estimates_by_job_id (self : DataService) (job_id : Value)
    : M (list Value) :=
  let! options := new_dict (dict_of [("jobId", job_id)]) in
  get_all (mk_endpoint self "sales" "estimates" None) options.

Definition get_appointment_assignments_by_job_id (self : DataService)
    (job_id : Value) : M (list Value) :=
  let! options := new_dict (dict_of [("jobId", job_id)]) in
  get_all (mk_endpoint self "dispatch" "appointment-assignments" None) options.

Definition get_technician_by_id (self : DataService) (tech_id : Value)
    : M Value :=
  let! options := new_dict (dict_of [("ids", tech_id)]) in
  let! found := get_all (mk_endpoint self "settings" "technicians" None) options in
  lift (py_first found).

Definition get_all_technicians (self : DataService) : M (list Value) :=
  let! options := new_dict (dict_of []) in
  get_all (mk_endpoint self "settings" "technicians" None) options.

Definition get_payments_for_invoices (self : DataService)
    (invoice_ids : list Value) : M (list Value) :=
  let! joined := lift (py_join "," invoice_ids) in
  let! options := new_dict (dict_of [("appliedToInvoiceIds", VStr joined)]) in
  get_all (mk_endpoint self "accounting" "payments" None) options.

Definition get_all_tag_types (self : DataService) : M (list Value) :=
  let! options := new_dict (dict_of []) in
  get_all (mk_endpoint self "settings" "tag-types" None) options.

Definition get_attachment (self : DataService) (attach_id : Value) : M string :=
  let! response :=
    get_one_raw (mk_endpoint self "forms" "jobs/attachment" None) attach_id in
  ret (content response).

Definition patch_job_external_data (self : DataService)
    (job_id data_payload external_guid : Value) (patch_mode : option Value)
    : M Value :=
  let patch_mode := default (VStr "Merge") patch_mode in
  let payload := VDict [
    ("externalData", VDict [
      ("patchMode", patch_mode);
      ("applicationGuid", external_guid);
      ("externalData", data_payload)])] in
  update (mk_endpoint self "jpm" "jobs" None) job_id payload "PATCH".

End DataService.

(** ** Dates the formatter may reject

    [DateLike] holds the dates [_convert_date_to_api_format] accepts.  What a
    caller passes need not be one: [accept_date] is the part of the formatter
    that can raise, and the text of an accepted date is the formatter's
    result.  The two per-status methods are given here on dates of any kind,
    with the formatter where the source has it: in the dict display, twice in
    every iteration, before the request. *)

Section unchecked_dates.
Context `{FloatOps} `{Carriers} `{!Collaborator}.
Context {AnyDate : Type} (accept_date : AnyDate → Timezone → Outcome DateLike).

(** [_convert_date_to_api_format(date, self.timezone)] on any input *)
Definition convert_date (self : DataService) (date : AnyDate) : M Value :=
  lift (match accept_date date (timezone self) with
        | Ok d => Ok (api_date self d)
        | Raise e => Raise e
        end).

Definition get_jobs_completed_between_unchecked (self : DataService)
    (start_date end_date : AnyDate) (job_status : option (list Value))
    (app_guid : Value) : M (list Value) :=
  let job_status := default default_job_status job_status in
  for_in job_status [] (λ data status,
    let! completed_on_or_after := convert_date self start_date in
    let! completed_before := convert_date self end_date in
    let! options := new_dict (dict_of [
      ("jobStatus", status);
      ("completedOnOrAfter", completed_on_or_after);
      ("completedBefore", completed_before)]) in
    set_app_guid options app_guid;;
    let! page := get_all (mk_endpoint self "jpm" "jobs" None) options in
    ret (data ++ page)).

Definition get_appointments_between_unchecked (self : DataService)
    (start_date end_date : AnyDate) (appointment_status : option (list Value))
    : M (list Value) :=
  let appointment_status :=
    default default_appointment_status appointment_status in
  for_in appointment_status [] (λ data status,
    let! starts_on_or_after := convert_date self start_date in
    let! starts_before := convert_date self end_date in
    let! options := new_dict (dict_of [
      ("status", status);
      ("startsOnOrAfter", starts_on_or_after);
      ("startsBefore", starts_before)]) in
    let! page := get_all (mk_endpoint self "jpm" "appointments" None) options in
    ret (data ++ page)).

End unchecked_dates.

(** * The vocabulary of the properties *)

Section vocabulary.
Context `{FloatOps} `{Carriers} `{!Collaborator}.
Implicit Types (self : DataService) (st : State) (ep : Endpoint).
Implicit Types (q d : gmap string Value) (v status : Value).

(** ** Loops that fetch one page per element *)

(** The body of such a loop: one [get_all] on [ep] with the query built for
    the element, whose page is appended to [data] (or whose exception leaves
    the loop). *)
Definition answers_page ep (query : Value → gmap string Value)
    (body : list Value → Value → M (list Value)) : Prop :=
  ∀ data status st, ∃ reply st',
    body data status st =
      (match reply with
       | Ok page => Ok (data ++ page)
       | Raise e => Raise e
       end, st') ∧
    calls st' = calls st ++ [EvGetAll ep (query status) reply].

(** the fetch [ev] went to [ep] with [key] set to [status] *)
Definition fetch_for ep (key : string) status (ev : Event) : Prop :=
  ∃ q reply, ev = EvGetAll ep q reply ∧ q !! key = Some status.

(** ** The queries of the per-status operations *)

Definition with_app_guid (app_guid : Value) d : gmap string Value :=
  if truthy app_guid
  then <["externalDataApplicationGuid" := app_guid]> d else d.

Definition jobs_completed_query self (start_date end_date : DateLike)
    (app_guid status : Value) : gmap string Value :=
  with_app_guid app_guid (dict_of [
    ("jobStatus", status);
    ("completedOnOrAfter", api_date self start_date);
    ("completedBefore", api_date self end_date)]).

Definition appointments_query self (start_date end_date : DateLike)
    (status : Value) : gmap string Value :=
  dict_of [
    ("status", status);
    ("startsOnOrAfter", api_date self start_date);
    ("startsBefore", api_date self end_date)].

(** ** The generic fetches *)

(** the mapping [options] stands for when the call starts: a fresh empty one
    for None, the caller's otherwise *)
Definition options_given st (options : option nat)
    : option (gmap string Value) :=
  match options with
  | None => Some ∅
  | Some l => heap st !! l
  end.

(** the object [get_api_data_between] works on *)
Definition options_object st (options : option nat) : nat :=
  match options with
  | None => fresh (dom (heap st))
  | Some l => l
  end.

(** ** Totals *)

(** a loop over pure steps, outside the monad *)
Fixpoint fold_outcome {A B} (step : B → A → Outcome B) (xs : list A) (acc : B)
    : Outcome B :=
  match xs with
  | [] => Ok acc
  | x :: rest =>
      match step acc x with
      | Ok acc' => fold_outcome step rest acc'
      | Raise e => Raise e
      end
  end.

(** [sales += sku['total']] *)
Definition add_total (sales sku : Value) : Outcome Value :=
  match py_getitem sku "total" with
  | Ok total => py_add sales total
  | Raise e => Raise e
  end.

(** the inner loop, for one row *)
Definition add_row (sales row : Value) : Outcome Value :=
  match py_getitem row "items" with
  | Ok items =>
      match py_iter items with
      | Ok skus => fold_outcome add_total skus sales
      | Raise e => Raise e
      end
  | Raise e => Raise e
  end.

(** Python's [sum(vs)]: [+] from the int 0, left to right *)
Definition py_sum (vs : list Value) : Outcome Value :=
  fold_outcome py_add vs (VInt 0).

(** [v] is a mapping with no key [k] *)
Definition lacks (v : Value) (k : string) : Prop :=
  ∃ kvs, v = VDict kvs ∧ assoc k kvs = None.

(** [row] is a record whose [items] field is the array [items] *)
Definition has_items (row : Value) (items : list Value) : Prop :=
  ∃ kvs, row = VDict kvs ∧ assoc "items" kvs = Some (VList items).

(** [sku] is a line item whose [total] field is [t] *)
Definition has_total (sku t : Value) : Prop :=
  ∃ kvs, sku = VDict kvs ∧ assoc "total" kvs = Some t.

(** [totals] are the [total] fields of all the elements of the [items]
    arrays of [rows], in order *)
Definition line_totals (rows totals : list Value) : Prop :=
  ∃ itemss, Forall2 has_items rows itemss ∧
            Forall2 has_total (concat itemss) totals.

Definition sold_estimates_query self (start_date end_date : DateLike)
    : gmap string Value :=
  dict_of [
    ("active", VStr "True");
    ("soldAfter", api_date self start_date);
    ("soldBefore", api_date self end_date)].

(** ** The date-range operations *)

(** The operations the table of the spec calls "between", with their
    arguments other than the two dates. *)
Inductive Between :=
| JobsCompleted (job_status : option (list Value)) (app_guid : Value)
| JobsCreated (app_guid : Value)
| JobsModified (app_guid : Value)
| Appointments (appointment_status : option (list Value))
| SoldEstimates
| PurchaseOrdersCreated
| Calls
| Bookings
| Payments
| Invoices.

Definition run_between self (op : Between) (start_date end_date : DateLike)
    : M (list Value) :=
  match op with
  | JobsCompleted job_status app_guid =>
      get_jobs_completed_between self start_date end_date job_status app_guid
  | JobsCreated app_guid =>
      get_jobs_created_between self start_date end_date app_guid
  | JobsModified app_guid =>
      get_jobs_modified_between self start_date end_date app_guid
  | Appointments appointment_status =>
      get_appointments_between self start_date end_date appointment_status
  | SoldEstimates => get_sold_estimates_between self start_date end_date
  | PurchaseOrdersCreated =>
      get_purchase_orders_created_between self start_date end_date
  | Calls => get_calls_between self start_date end_date
  | Bookings => get_bookings_between self start_date end_date
  | Payments => get_payments_between self start_date end_date
  | Invoices => get_invoices_between self start_date end_date
  end.

(** The names of the lower and the upper date bound each operation sends. *)
Definition bound_keys (op : Between) : string * string :=
  match op with
  | JobsCompleted _ _ => ("completedOnOrAfter", "completedBefore")
  | JobsCreated _ => ("createdOnOrAfter", "createdBefore")
  | JobsModified _ => ("modifiedOnOrAfter", "modifiedBefore")
  | Appointments _ => ("startsOnOrAfter", "startsBefore")
  | SoldEstimates => ("soldAfter", "soldBefore")
  | PurchaseOrdersCreated => ("createdOnOrAfter", "createdBefore")
  | Calls => ("createdOnOrAfter", "createdBefore")
  | Bookings => ("createdOnOrAfter", "createdBefore")
  | Payments => ("paidOnAfter", "paidOnBefore")
  | Invoices => ("invoicedOnOrAfter", "invoicedOnBefore")
  end.

(** The operations whose two names are [{field}OnOrAfter] and
    [{field}Before] for one [field]. *)
Definition on_or_after_and_before (op : Between) : bool :=
  match op with
  | SoldEstimates | Payments | Invoices => false
  | _ => true
  end.

(** The operations that make one request, whatever their arguments. *)
Definition single_request (op : Between) : bool :=
  match op with
  | JobsCompleted _ _ | Appointments _ => false
  | _ => true
  end.

(** the filters that are not date bounds *)
Definition other_filters : list string :=
  ["jobStatus"; "status"; "active"; "externalDataApplicationGuid"].

(** [d] holds [a] under [lo] and [b] under [hi], and besides them only
    filters that are not date bounds *)
Definition bounded_dict (lo hi : string) (a b : Value) d : Prop :=
  d !! lo = Some a ∧ d !! hi = Some b ∧
  ∀ k, is_Some (d !! k) → k ∈ lo :: hi :: other_filters.

(** [ev] is a paged fetch with such a query *)
Definition bounded_query (lo hi : string) (a b : Value) (ev : Event) : Prop :=
  ∃ q, ev_query ev = Some q ∧ bounded_dict lo hi a b q.

(** The field each operation bounds. *)
Definition date_field (op : Between) : string :=
  match op with
  | JobsCompleted _ _ => "completed"
  | JobsCreated _ | PurchaseOrdersCreated | Calls | Bookings => "created"
  | JobsModified _ => "modified"
  | Appointments _ => "starts"
  | SoldEstimates => "sold"
  | Payments => "paid"
  | Invoices => "invoiced"
  end.

(** ** Which version each method requests *)

(** Every method of the class, with its arguments; [version] is left out
    where a method has it as a parameter, so that the default applies. *)
Inductive Method :=
| GetApiData (folder endpoint : string) (options : option nat)
| GetApiDataBetween (folder endpoint : string)
    (start_date end_date : DateLike) (date_filter_modifier : option string)
    (options : option nat)
| GetBetween (op : Between) (start_date end_date : DateLike)
| GetTotalSalesBetween (start_date end_date : DateLike)
| GetEmployees (active : option Value)
| GetTechnicians (active : option Value)
| GetTagTypes (active : option Value)
| GetBusinessUnits (active : option Value)
| GetJobTypes (active : option Value)
| GetInvoicesById (ids : list Value)
| GetEstimatesByJobId (job_id : Value)
| GetAppointmentAssignmentsByJobId (job_id : Value)
| GetTechnicianById (tech_id : Value)
| GetAllTechnicians
| GetPaymentsForInvoices (invoice_ids : list Value)
| GetAllTagTypes
| GetAttachment (attach_id : Value)
| PatchJobExternalData (job_id data_payload external_guid : Value)
    (patch_mode : option Value).

(** the state a call of the method ends in *)
Definition call_method self (m : Method) st : State :=
  match m with
  | GetApiData folder endpoint options =>
      (get_api_data self folder endpoint options None st).2
  | GetApiDataBetween folder endpoint start_date end_date modifier options =>
      (get_api_data_between self folder endpoint start_date end_date
         modifier options None st).2
  | GetBetween op start_date end_date =>
      (run_between self op start_date end_date st).2
  | GetTotalSalesBetween start_date end_date =>
      (get_total_sales_between self start_date end_date st).2
  | GetEmployees active => (get_employees self active st).2
  | GetTechnicians active => (get_technicians self active st).2
  | GetTagTypes active => (get_tag_types self active st).2
  | GetBusinessUnits active => (get_business_units self active st).2
  | GetJobTypes active => (get_job_types self active st).2
  | GetInvoicesById ids => (get_invoices_by_id self ids st).2
  | GetEstimatesByJobId job_id => (get_estimates_by_job_id self job_id st).2
  | GetAppointmentAssignmentsByJobId job_id =>
      (get_appointment_assignments_by_job_id self job_id st).2
  | GetTechnicianById tech_id => (get_technician_by_id self tech_id st).2
  | GetAllTechnicians => (get_all_technicians self st).2
  | GetPaymentsForInvoices invoice_ids =>
      (get_payments_for_invoices self invoice_ids st).2
  | GetAllTagTypes => (get_all_tag_types self st).2
  | GetAttachment attach_id => (get_attachment self attach_id st).2
  | PatchJobExternalData job_id data_payload external_guid patch_mode =>
      (patch_job_external_data self job_id data_payload external_guid
         patch_mode st).2
  end.

Definition is_calls_between (m : Method) : bool :=
  match m with
  | GetBetween Calls _ _ => true
  | _ => false
  end.

(** every collaborator call [m] makes satisfies [P] *)
Definition emits {A} (P : Event → Prop) (m : M A) : Prop :=
  ∀ st, ∃ evs, calls (m st).2 = calls st ++ evs ∧ Forall P evs.

(** the event went to an endpoint that requests with version [text] *)
Definition requests_version (text : string) (ev : Event) : Prop :=
  api_version (ev_endpoint ev) = text.

(** ** Queries, frames and budgets *)

(** [ev] is a paged fetch whose query satisfies [Q] *)
Definition sends (Q : gmap string Value → Prop) (ev : Event) : Prop :=
  ∃ q, ev_query ev = Some q ∧ Q q.

(** the [app_guid] argument of a date-range operation, None where it has no
    such parameter *)
Definition app_guid_of (op : Between) : Value :=
  match op with
  | JobsCompleted _ app_guid | JobsCreated app_guid | JobsModified app_guid =>
      app_guid
  | _ => VNone
  end.

(** int or float (bool apart) *)
Definition is_number (v : Value) : bool :=
  match v with
  | VInt _ | VFloat _ => true
  | _ => false
  end.

(** what [+] accepts next to a number: int, float or bool *)
Definition is_numeric (v : Value) : bool :=
  match v with
  | VInt _ | VFloat _ | VBool _ => true
  | _ => false
  end.

(** the mapping object a call of the method is given, if any *)
Definition method_options (m : Method) : option nat :=
  match m with
  | GetApiData _ _ options | GetApiDataBetween _ _ _ _ _ options => options
  | _ => None
  end.

(** the lines a call of the method prints *)
Definition printed (m : Method) : list string :=
  match m with
  | GetApiData folder endpoint None => [unbounded_warning folder endpoint]
  | _ => []
  end.

(** the most collaborator calls a call of the method makes *)
Definition request_budget (m : Method) : nat :=
  match m with
  | GetBetween (JobsCompleted job_status _) _ _ =>
      length (default default_job_status job_status)
  | GetBetween (Appointments appointment_status) _ _ =>
      length (default default_appointment_status appointment_status)
  | _ => 1
  end.

Inductive Kind := PagedFetch | RawFetch | Mutation.

Definition ev_kind (ev : Event) : Kind :=
  match ev with
  | EvGetAll _ _ _ => PagedFetch
  | EvGetOneRaw _ _ _ => RawFetch
  | EvUpdate _ _ _ _ _ => Mutation
  end.

Definition method_kind (m : Method) : Kind :=
  match m with
  | GetAttachment _ => RawFetch
  | PatchJobExternalData _ _ _ _ => Mutation
  | _ => PagedFetch
  end.

(** [m] prints nothing *)
Definition quiet {A} (m : M A) : Prop :=
  ∀ st, stdout (m st).2 = stdout st.

(** [m] makes at most [n] collaborator calls *)
Definition within (n : nat) {A} (m : M A) : Prop :=
  ∀ st, ∃ evs, calls (m st).2 = calls st ++ evs ∧ (length evs ≤ n)%nat.

(** [m] leaves the mapping objects in [D] as they are, and what it returns
    satisfies [Q] *)
Definition guards (D : gset nat) {A} (Q : A → Prop) (m : M A) : Prop :=
  ∀ st, D ⊆ dom (heap st) →
    (∀ l, l ∈ D → heap (m st).2 !! l = heap st !! l) ∧
    D ⊆ dom (heap (m st).2) ∧
    match (m st).1 with
    | Ok a => Q a
    | Raise _ => True
    end.

(** the two operations that fetch once per status *)
Definition per_status (m : Method) : bool :=
  match m with
  | GetBetween (JobsCompleted _ _) _ _ | GetBetween (Appointments _) _ _ => true
  | _ => false
  end.

(** The collaborator calls a call of the method is sure to make from [st]:
    one; none from a per-status operation with no status, from the two
    methods that join ids when an id is not a str, and from the generic
    fetches when [options] is not a mapping of the store. *)
Definition requests_due (m : Method) st : nat :=
  match m with
  | GetApiData _ _ (Some l) | GetApiDataBetween _ _ _ _ _ (Some l) =>
      match heap st !! l with Some _ => 1 | None => 0 end
  | GetBetween (JobsCompleted job_status _) _ _ =>
      match default default_job_status job_status with [] => 0 | _ => 1 end
  | GetBetween (Appointments appointment_status) _ _ =>
      match default default_appointment_status appointment_status with
      | [] => 0
      | _ => 1
      end
  | GetInvoicesById ids | GetPaymentsForInvoices ids =>
      if forallb is_str ids then 1 else 0
  | _ => 1
  end.

End vocabulary.

(** * A test double

    A collaborator in the manner of a unit-test mock: the world is the list
    of canned replies still to give, [get_all] gives the next one (an empty
    page once they are used up) and leaves the query mapping alone.  Dates
    are strings, formatted by appending the timezone offset. *)

(** [s] ends with [suffix] *)
Fixpoint ends_with (suffix s : string) : bool :=
  if String.eqb suffix s then true
  else match s with
       | EmptyString => false
       | String _ rest => ends_with suffix rest
       end.

Definition mock_floats : FloatOps := {|
  float := Z;
  float_add := Z.add;
  float_of_int := Some;
  float_is_zero := Z.eqb 0
|}.

Definition mock_types : Carriers := {|
  Conn := string;
  Timezone := string;
  DateLike := string;
  World := list (Outcome (list (@Value mock_floats)))
|}.

Section test_double.
#[local] Existing Instance mock_floats.
#[local] Existing Instance mock_types.

Definition mock_get_all (ep : Endpoint) (q : gmap string Value)
    (w : list (Outcome (list Value))) : GetAllReply :=
  match w with
  | r :: rest =>
      {| reply_outcome := r; reply_query := q; reply_world := rest |}
  | [] => {| reply_outcome := Ok []; reply_query := q; reply_world := [] |}
  end.

Definition mock : Collaborator := {|
  get_timezone_by_file := λ _, Ok "+10:00";
  _convert_date_to_api_format := λ d tz, d +:+ "T00:00:00" +:+ tz;
  Endpoint_get_all := mock_get_all;
  Endpoint_get_one_raw := λ _ _ w, (Ok {| content := "" |}, w);
  Endpoint_update := λ _ _ payload _ w, (Ok payload, w)
|}.
#[local] Existing Instance mock.

Definition mock_self : DataService :=
  {| conn := "tenant.json"; timezone := "+10:00" |}.

(** no mapping objects, nothing called or printed yet *)
Definition mock_state (replies : list (Outcome (list Value))) : State :=
  {| heap := ∅; world := replies; calls := []; stdout := [] |}.

(** some key of [q] ends with [suffix] *)
Definition has_key_ending (suffix : string) (q : gmap string Value) : bool :=
  existsb (ends_with suffix) (map_to_list q).*1.

(** a state in which the caller holds one mapping object, [d], at reference 3 *)
Definition caller_state (d : gmap string Value) : State :=
  {| heap := {[ 3%nat := d ]}; world := []; calls := []; stdout := [] |}.

(** the two records of the spec's example of total sales *)
Definition sold_rows : list Value :=
  [VDict [("items", VList [VDict [("total", VInt 10)];
                           VDict [("total", VInt 5)]])];
   VDict [("items", VList [VDict [("total", VInt 3)]])]].

(** A caller's mapping with a filter of its own and a stale upper bound. *)
Definition callers_options : gmap string Value :=
  {[ "jobStatus" := VStr "Completed"; "completedBefore" := VStr "stale" ]}.

Definition merged_options : gmap string Value :=
  {[ "jobStatus" := VStr "Completed";
     "completedOnOrAfter" := VStr "2024-01-01T00:00:00+10:00";
     "completedBefore" := VStr "2024-01-31T00:00:00+10:00" ]}.

(** a formatter that rejects the empty string *)
Definition mock_accept_date (date tz : string) : Outcome string :=
  if String.eqb date "" then Raise (ExternalError "no date") else Ok date.

End test_double.

(** * Properties *)

Section properties.
Context `{FloatOps} `{Carriers} `{!Collaborator}.
Implicit Types (self : DataService) (st : State) (ep : Endpoint).
Implicit Types (q d : gmap string Value) (v status : Value).

(** ** Running the primitives *)

(** A dict display handed to [get_all] at once. *)
Lemma fetch_display ep d st :
  (let! options := new_dict d in get_all ep options) st =
  let l := fresh (dom (heap st)) in
  let r := Endpoint_get_all ep d (world st) in
  (reply_outcome r,
   {| heap := <[l := reply_query r]> (<[l := d]> (heap st));
      world := reply_world r;
      calls := calls st ++ [EvGetAll ep d (reply_outcome r)];
      stdout := stdout st |}).
Proof.
  unfold bind, new_dict, get_all; simpl.
  by rewrite lookup_insert_eq.
Qed.

(** The same with the optional application guid written in between. *)
Lemma fetch_display_guid ep d app_guid st :
  (let! options := new_dict d in
   set_app_guid options app_guid;; get_all ep options) st =
  let l := fresh (dom (heap st)) in
  let q := if truthy app_guid
           then <["externalDataApplicationGuid" := app_guid]> d else d in
  let r := Endpoint_get_all ep q (world st) in
  (reply_outcome r,
   {| heap := <[l := reply_query r]> (<[l := q]> (heap st));
      world := reply_world r;
      calls := calls st ++ [EvGetAll ep q (reply_outcome r)];
      stdout := stdout st |}).
Proof.
  unfold bind, new_dict, set_app_guid, setitem, get_all, ret; simpl.
  destruct (truthy app_guid); simpl.
  - rewrite lookup_insert_eq; simpl. rewrite lookup_insert_eq.
    by rewrite !insert_insert_eq.
  - by rewrite lookup_insert_eq.
Qed.

(** ** Loops that fetch one page per element *)

Lemma for_in_fetches ep query body :
  answers_page ep query body →
  ∀ statuses data st,
    let run := for_in statuses data body st in
    ∃ evs n,
      calls run.2 = calls st ++ evs ∧
      map ev_fetch evs = map (λ s, Some (ep, query s)) (take n statuses) ∧
      (forallb ev_answered evs = true →
         map ev_fetch evs = map (λ s, Some (ep, query s)) statuses ∧
         run.1 = Ok (data ++ concat (map ev_records evs))).
Proof.
  intros Hbody statuses.
  induction statuses as [|s ss IH]; intros data st; simpl.
  - exists [], 0%nat. unfold ret; simpl.
    rewrite !app_nil_r. by repeat split.
  - destruct (Hbody data s st) as (reply & st1 & Hrun & Hcalls).
    unfold bind. rewrite Hrun.
    destruct reply as [page|e].
    + destruct (IH (data ++ page) st1) as (evs & n & Hc & Hpre & Hall).
      exists (EvGetAll ep (query s) (Ok page) :: evs), (S n).
      split; [|split].
      * rewrite Hc, Hcalls. by rewrite <- app_assoc.
      * simpl. by rewrite Hpre.
      * simpl. intros Hans. destruct (Hall Hans) as [Hfull Hres].
        split; [by rewrite Hfull|].
        rewrite Hres. by rewrite <- app_assoc.
    + exists [EvGetAll ep (query s) (Raise e)], 1%nat.
      split; [|split]; simpl.
      * done.
      * by rewrite ?take_0.
      * discriminate.
Qed.

Lemma fetches_for ep query key :
  (∀ status, query status !! key = Some status) →
  ∀ statuses evs,
    map ev_fetch evs = map (λ s, Some (ep, query s)) statuses →
    Forall2 (fetch_for ep key) statuses evs.
Proof.
  intros Hkey statuses.
  induction statuses as [|s ss IH]; intros [|ev evs] Heq; simpl in Heq;
    try discriminate; constructor.
  - destruct ev as [ep' q r| |]; simpl in Heq; try discriminate.
    injection Heq as -> -> _. by exists (query s), r.
  - apply IH. by injection Heq.
Qed.

(** ** The queries of the per-status operations *)

Lemma jobs_completed_body self start_date end_date app_guid :
  answers_page (mk_endpoint self "jpm" "jobs" None)
    (jobs_completed_query self start_date end_date app_guid)
    (λ data status,
      let! options := new_dict (dict_of [
        ("jobStatus", status);
        ("completedOnOrAfter", api_date self start_date);
        ("completedBefore", api_date self end_date)]) in
      set_app_guid options app_guid;;
      let! page := get_all (mk_endpoint self "jpm" "jobs" None) options in
      ret (data ++ page)).
Proof.
  intros data status st.
  unfold bind, new_dict, set_app_guid, setitem, get_all, ret.
  unfold jobs_completed_query, with_app_guid.
  destruct (truthy app_guid); simpl; rewrite !lookup_insert_eq; simpl;
    rewrite ?lookup_insert_eq;
    match goal with
    | |- context [Endpoint_get_all ?ep ?q ?w] =>
        exists (reply_outcome (Endpoint_get_all ep q w));
        destruct (reply_outcome (Endpoint_get_all ep q w))
    end; eexists; (split; [reflexivity|done]).
Qed.

Lemma appointments_body self start_date end_date :
  answers_page (mk_endpoint self "jpm" "appointments" None)
    (appointments_query self start_date end_date)
    (λ data status,
      let! options := new_dict (dict_of [
        ("status", status);
        ("startsOnOrAfter", api_date self start_date);
        ("startsBefore", api_date self end_date)]) in
      let! page :=
        get_all (mk_endpoint self "jpm" "appointments" None) options in
      ret (data ++ page)).
Proof.
  intros data status st.
  unfold bind, new_dict, get_all, ret, appointments_query.
  simpl; rewrite !lookup_insert_eq.
  match goal with
  | |- context [Endpoint_get_all ?ep ?q ?w] =>
      exists (reply_outcome (Endpoint_get_all ep q w));
      destruct (reply_outcome (Endpoint_get_all ep q w))
  end; eexists; (split; [reflexivity|done]).
Qed.

Lemma jobs_completed_query_status self start_date end_date app_guid status :
  jobs_completed_query self start_date end_date app_guid status !! "jobStatus"
  = Some status.
Proof.
  unfold jobs_completed_query, with_app_guid, dict_of; simpl.
  destruct (truthy app_guid); by simplify_map_eq.
Qed.

Lemma appointments_query_status self start_date end_date status :
  appointments_query self start_date end_date status !! "status" = Some status.
Proof. unfold appointments_query, dict_of; simpl. by simplify_map_eq. Qed.

(** What a per-status loop does, as a statement about the calls it adds. *)
Lemma per_status_fetches ep query key body :
  answers_page ep query body →
  (∀ status, query status !! key = Some status) →
  ∀ statuses st,
    let run := for_in statuses [] body st in
    ∃ evs,
      calls run.2 = calls st ++ evs ∧
      (∃ n, Forall2 (fetch_for ep key) (take n statuses) evs) ∧
      (forallb ev_answered evs = true →
         Forall2 (fetch_for ep key) statuses evs ∧
         run.1 = Ok (concat (map ev_records evs))).
Proof.
  intros Hbody Hkey statuses st.
  destruct (for_in_fetches ep query body Hbody statuses [] st)
    as (evs & n & Hcalls & Hpre & Hall).
  exists evs. split; [done|]. split.
  - exists n. by eapply fetches_for.
  - intros Hans. destruct (Hall Hans) as [Hfull Hres].
    split; [by eapply fetches_for | done].
Qed.

(** C1. [get_jobs_completed_between] and [get_appointments_between] call
    [get_all] once per status, in the order of the list (the default list
    when none is given): the calls the run adds are, one for one, fetches of
    jpm/jobs with [jobStatus] (of jpm/appointments with [status]) set to the
    statuses, up to the first that raises; and when every fetch is answered
    there is exactly one per status and the result is the concatenation of
    the pages in that order. *)
Theorem per_status_operations_fetch_in_order self
    (start_date end_date : DateLike) (statuses : option (list Value))
    (app_guid : Value) st :
  (let given := default default_job_status statuses in
   let run :=
     get_jobs_completed_between self start_date end_date statuses app_guid st in
   let fetched := fetch_for (mk_endpoint self "jpm" "jobs" None) "jobStatus" in
   ∃ evs,
     calls run.2 = calls st ++ evs ∧
     (∃ n, Forall2 fetched (take n given) evs) ∧
     (forallb ev_answered evs = true →
        Forall2 fetched given evs ∧
        run.1 = Ok (concat (map ev_records evs)))) ∧
  (let given := default default_appointment_status statuses in
   let run := get_appointments_between self start_date end_date statuses st in
   let fetched :=
     fetch_for (mk_endpoint self "jpm" "appointments" None) "status" in
   ∃ evs,
     calls run.2 = calls st ++ evs ∧
     (∃ n, Forall2 fetched (take n given) evs) ∧
     (forallb ev_answered evs = true →
        Forall2 fetched given evs ∧
        run.1 = Ok (concat (map ev_records evs)))).
Proof.
  split.
  - apply (per_status_fetches _ _ _ _
      (jobs_completed_body self start_date end_date app_guid)
      (jobs_completed_query_status self start_date end_date app_guid)).
  - apply (per_status_fetches _ _ _ _
      (appointments_body self start_date end_date)
      (appointments_query_status self start_date end_date)).
Qed.

(** ** Joining ids *)

Lemma py_join_ok sep (xs : list Value) :
  is_ok (py_join sep xs) = forallb is_str xs.
Proof.
  induction xs as [|x xs IH]; [done|].
  destruct x; try done. simpl.
  destruct xs as [|y ys]; [done|].
  rewrite <- IH. by destruct (py_join sep (y :: ys)).
Qed.

Lemma py_join_raises sep (xs : list Value) e :
  py_join sep xs = Raise e → e = TypeError.
Proof.
  revert e. induction xs as [|x xs IH]; intros e; [done|].
  destruct x; simpl; try congruence.
  destruct xs as [|y ys]; [done|].
  destruct (py_join sep (y :: ys)) as [t|e'] eqn:Hrest; [done|].
  intros [= <-]. by apply IH.
Qed.

Lemma py_join_not_str sep (xs : list Value) v :
  v ∈ xs → is_str v = false → py_join sep xs = Raise TypeError.
Proof.
  intros Hin Hv.
  destruct (py_join sep xs) as [t|e] eqn:Hjoin.
  - pose proof (py_join_ok sep xs) as Hok. rewrite Hjoin in Hok.
    symmetry in Hok. simpl in Hok.
    rewrite forallb_forall in Hok.
    apply list_elem_of_In in Hin. apply Hok in Hin. congruence.
  - by rewrite (py_join_raises _ _ _ Hjoin).
Qed.

(** C10. An id list with an element that is not a str makes
    [get_invoices_by_id] and [get_payments_for_invoices] raise TypeError in
    [','.join], with the state as it was: nothing is requested.  The join
    succeeds exactly when every element is a str. *)
Theorem join_of_non_string_ids_raises self (ids : list Value) v st :
  v ∈ ids → is_str v = false →
  get_invoices_by_id self ids st = (Raise TypeError, st) ∧
  get_payments_for_invoices self ids st = (Raise TypeError, st) ∧
  (∀ xs : list Value,
     is_ok (py_join "," xs) = true ↔ Forall (λ x, is_str x = true) xs).
Proof.
  intros Hin Hv. split; [|split].
  - unfold get_invoices_by_id, bind, lift.
    by rewrite (py_join_not_str _ _ _ Hin Hv).
  - unfold get_payments_for_invoices, bind, lift.
    by rewrite (py_join_not_str _ _ _ Hin Hv).
  - intros xs. rewrite py_join_ok, forallb_forall, Forall_forall.
    split; intros Hall x Hx; apply Hall; by apply list_elem_of_In.
Qed.

(** C8. [get_invoices_by_id(["1", "2", "3"])] makes one call, [get_all] on
    accounting/invoices with the query [{"ids": "1,2,3"}] and no other key,
    and returns its outcome. *)
Theorem invoices_by_id_sends_joined_ids self st :
  let ep := mk_endpoint self "accounting" "invoices" None in
  let q : gmap string Value := {[ "ids" := VStr "1,2,3" ]} in
  let reply := reply_outcome (Endpoint_get_all ep q (world st)) in
  let run := get_invoices_by_id self [VStr "1"; VStr "2"; VStr "3"] st in
  run.1 = reply ∧ calls run.2 = calls st ++ [EvGetAll ep q reply].
Proof.
  intros ep q reply run.
  assert (run = (let! options := new_dict q in get_all ep options) st) as ->
    by reflexivity.
  by rewrite fetch_display.
Qed.

(** C5. [get_technician_by_id(x)] makes one call, [get_all] on
    settings/technicians with the query [{"ids": x}]; it returns the first
    element of the sequence that call returns (so the one record, when there
    is just one) and raises IndexError when the sequence is empty. *)
Theorem technician_by_id_takes_first self (tech_id : Value) st :
  let ep := mk_endpoint self "settings" "technicians" None in
  let q : gmap string Value := {[ "ids" := tech_id ]} in
  let reply := reply_outcome (Endpoint_get_all ep q (world st)) in
  let run := get_technician_by_id self tech_id st in
  calls run.2 = calls st ++ [EvGetAll ep q reply] ∧
  (∀ record rest, reply = Ok (record :: rest) → run.1 = Ok record) ∧
  (∀ record, reply = Ok [record] → run.1 = Ok record) ∧
  (reply = Ok [] → run.1 = Raise IndexError).
Proof.
  unfold get_technician_by_id, bind, new_dict, get_all, lift, dict_of; simpl.
  rewrite lookup_insert_eq, insert_empty.
  destruct (reply_outcome _) as [[|record rest]|e]; simpl;
    repeat split; congruence.
Qed.

(** ** The generic fetches *)

Lemma get_api_data_given self folder endpoint l version d st :
  heap st !! l = Some d →
  get_api_data self folder endpoint (Some l) version st =
  let ep :=
    mk_endpoint self folder endpoint (Some (default (VerInt 2) version)) in
  let r := Endpoint_get_all ep d (world st) in
  (reply_outcome r,
   {| heap := <[l := reply_query r]> (heap st);
      world := reply_world r;
      calls := calls st ++ [EvGetAll ep d (reply_outcome r)];
      stdout := stdout st |}).
Proof.
  intros Hl. unfold get_api_data, bind, ret, get_all; simpl. by rewrite Hl.
Qed.

Lemma get_api_data_absent self folder endpoint version st :
  get_api_data self folder endpoint None version st =
  let ep :=
    mk_endpoint self folder endpoint (Some (default (VerInt 2) version)) in
  let l := fresh (dom (heap st)) in
  let r := Endpoint_get_all ep ∅ (world st) in
  (reply_outcome r,
   {| heap := <[l := reply_query r]> (<[l := ∅]> (heap st));
      world := reply_world r;
      calls := calls st ++ [EvGetAll ep ∅ (reply_outcome r)];
      stdout := stdout st ++ [unbounded_warning folder endpoint] |}).
Proof.
  unfold get_api_data, bind, ret, new_dict, print, get_all; simpl.
  by rewrite lookup_insert_eq.
Qed.

(** C2, as the code has it.  Without [options] (None), [get_api_data] prints
    the one warning line and then fetches with an empty query; the outcome is
    the collaborator's, so the warning blocks nothing.  With a mapping given,
    empty or not, it prints nothing and fetches with that mapping. *)
Theorem get_api_data_warns_without_options self folder endpoint version st :
  let ep :=
    mk_endpoint self folder endpoint (Some (default (VerInt 2) version)) in
  (let run := get_api_data self folder endpoint None version st in
   let reply := reply_outcome (Endpoint_get_all ep ∅ (world st)) in
   stdout run.2 = stdout st ++ [unbounded_warning folder endpoint] ∧
   calls run.2 = calls st ++ [EvGetAll ep ∅ reply] ∧
   run.1 = reply) ∧
  (∀ l d, heap st !! l = Some d →
     let run := get_api_data self folder endpoint (Some l) version st in
     let reply := reply_outcome (Endpoint_get_all ep d (world st)) in
     stdout run.2 = stdout st ∧
     calls run.2 = calls st ++ [EvGetAll ep d reply] ∧
     run.1 = reply).
Proof.
  split.
  - by rewrite get_api_data_absent.
  - intros l d Hl. by rewrite (get_api_data_given _ _ _ _ _ _ _ Hl).
Qed.

Lemma date_keys_differ (field : string) :
  field +:+ "OnOrAfter" ≠ field +:+ "Before".
Proof. intros Heq. by apply String.app_inj in Heq. Qed.

Lemma get_api_data_between_run self folder endpoint
    (start_date end_date : DateLike) date_filter_modifier options version d st :
  options_given st options = Some d →
  let field := default "completed" date_filter_modifier in
  let merged :=
    <[field +:+ "Before" := api_date self end_date]>
      (<[field +:+ "OnOrAfter" := api_date self start_date]> d) in
  let l := options_object st options in
  get_api_data_between self folder endpoint start_date end_date
    date_filter_modifier options version st =
  get_api_data self folder endpoint (Some l)
    (Some (default (VerInt 2) version))
    {| heap := <[l := merged]> (heap st); world := world st;
       calls := calls st; stdout := stdout st |}.
Proof.
  intros Hd. unfold get_api_data_between, bind at 1.
  destruct options as [l|]; simpl in *.
  - unfold bind, setitem; simpl. rewrite Hd; simpl.
    rewrite lookup_insert_eq. by rewrite insert_insert_eq.
  - injection Hd as <-.
    unfold bind, setitem; simpl. rewrite lookup_insert_eq; simpl.
    rewrite lookup_insert_eq. by rewrite !insert_insert_eq.
Qed.

(** C6. [get_api_data_between] writes [{field}OnOrAfter] and [{field}Before]
    ([field] being "completed" unless given) with the two dates formatted in
    the bound timezone into the options, over whatever the caller had under
    those keys and leaving the caller's other keys, and then is
    [get_api_data] on that mapping: one [get_all] with the merged query,
    whose outcome is the result, and no warning. *)
Theorem get_api_data_between_merges_date_keys self folder endpoint
    (start_date end_date : DateLike) date_filter_modifier options version d st :
  options_given st options = Some d →
  let field := default "completed" date_filter_modifier in
  let lo := field +:+ "OnOrAfter" in
  let hi := field +:+ "Before" in
  let merged :=
    <[hi := api_date self end_date]> (<[lo := api_date self start_date]> d) in
  let l := options_object st options in
  let version' := Some (default (VerInt 2) version) in
  let ep := mk_endpoint self folder endpoint version' in
  let reply := reply_outcome (Endpoint_get_all ep merged (world st)) in
  let run :=
    get_api_data_between self folder endpoint start_date end_date
      date_filter_modifier options version st in
  (date_filter_modifier = None →
     lo = "completedOnOrAfter" ∧ hi = "completedBefore") ∧
  merged !! lo = Some (api_date self start_date) ∧
  merged !! hi = Some (api_date self end_date) ∧
  (∀ k, k ≠ lo → k ≠ hi → merged !! k = d !! k) ∧
  run =
    get_api_data self folder endpoint (Some l) version'
      {| heap := <[l := merged]> (heap st); world := world st;
         calls := calls st; stdout := stdout st |} ∧
  run.1 = reply ∧
  calls run.2 = calls st ++ [EvGetAll ep merged reply] ∧
  stdout run.2 = stdout st.
Proof.
  intros Hd field lo hi merged l version' ep reply run.
  pose proof (date_keys_differ field) as Hne.
  assert (run =
    get_api_data self folder endpoint (Some l) version'
      {| heap := <[l := merged]> (heap st); world := world st;
         calls := calls st; stdout := stdout st |}) as Hrun
    by by apply get_api_data_between_run.
  split; [by intros ->|].
  split; [subst merged lo hi; by simplify_map_eq|].
  split; [subst merged; by simplify_map_eq|].
  split; [intros k ? ?; subst merged; by simplify_map_eq|].
  split; [done|].
  rewrite Hrun.
  rewrite (get_api_data_given _ _ _ l _ merged); [done|].
  simpl. by rewrite lookup_insert_eq.
Qed.

(** C9. When the caller passes a mapping object, [get_api_data_between]
    writes the two date keys into that object and hands that object to the
    collaborator; no other object is made.  After the call, raise or not, the
    caller's object is the merged mapping as the collaborator left it: the
    merged mapping itself when the collaborator only reads it, and in any
    case one that holds the two date keys when the collaborator left those
    two entries alone. *)
Theorem get_api_data_between_writes_callers_mapping self folder endpoint
    (start_date end_date : DateLike) date_filter_modifier l version d st :
  heap st !! l = Some d →
  let field := default "completed" date_filter_modifier in
  let lo := field +:+ "OnOrAfter" in
  let hi := field +:+ "Before" in
  let merged :=
    <[hi := api_date self end_date]> (<[lo := api_date self start_date]> d) in
  let ep :=
    mk_endpoint self folder endpoint (Some (default (VerInt 2) version)) in
  let r := Endpoint_get_all ep merged (world st) in
  let run :=
    get_api_data_between self folder endpoint start_date end_date
      date_filter_modifier (Some l) version st in
  calls run.2 = calls st ++ [EvGetAll ep merged (reply_outcome r)] ∧
  dom (heap run.2) = dom (heap st) ∧
  heap run.2 !! l = Some (reply_query r) ∧
  (reply_query r = merged → heap run.2 !! l = Some merged) ∧
  (reply_query r !! lo = merged !! lo → reply_query r !! hi = merged !! hi →
   ∃ d', heap run.2 !! l = Some d' ∧
         d' !! lo = Some (api_date self start_date) ∧
         d' !! hi = Some (api_date self end_date)).
Proof.
  intros Hl field lo hi merged ep r run.
  pose proof (date_keys_differ field) as Hne.
  assert (run =
    (reply_outcome r,
     {| heap := <[l := reply_query r]> (heap st); world := reply_world r;
        calls := calls st ++ [EvGetAll ep merged (reply_outcome r)];
        stdout := stdout st |})) as ->.
  { subst run.
    rewrite (get_api_data_between_run _ _ _ _ _ _ (Some l) _ d) by done.
    rewrite (get_api_data_given _ _ _ l _ merged)
      by (simpl; by rewrite lookup_insert_eq).
    simpl. by rewrite insert_insert_eq. }
  simpl. split; [done|]. split; [|split; [|split]].
  - apply dom_insert_lookup_L. by eexists.
  - by rewrite lookup_insert_eq.
  - intros Hsame. by rewrite lookup_insert_eq, Hsame.
  - intros Hlo Hhi.
    exists (reply_query r). rewrite lookup_insert_eq, Hlo, Hhi.
    subst merged lo hi. split; [done|]. by simplify_map_eq.
Qed.

(** ** Totals *)

Lemma for_in_pure {A B} (step : B → A → Outcome B) (body : B → A → M B) :
  (∀ acc x st, body acc x st = (step acc x, st)) →
  ∀ xs acc st, for_in xs acc body st = (fold_outcome step xs acc, st).
Proof.
  intros Hbody xs.
  induction xs as [|x xs IH]; intros acc st; simpl; [done|].
  unfold bind. rewrite Hbody. by destruct (step acc x).
Qed.

Lemma fold_outcome_app {A B} (step : B → A → Outcome B) xs ys acc :
  fold_outcome step (xs ++ ys) acc =
  match fold_outcome step xs acc with
  | Ok acc' => fold_outcome step ys acc'
  | Raise e => Raise e
  end.
Proof.
  revert acc. induction xs as [|x xs IH]; intros acc; simpl; [done|].
  by destruct (step acc x).
Qed.

Lemma fold_outcome_raises {A B} (step : B → A → Outcome B) xs x :
  x ∈ xs → (∀ acc, ∃ e, step acc x = Raise e) →
  ∀ acc, ∃ e, fold_outcome step xs acc = Raise e.
Proof.
  intros Hin Hx.
  induction xs as [|y ys IH]; intros acc; simpl.
  - by apply not_elem_of_nil in Hin.
  - apply elem_of_cons in Hin as [<-|Hin].
    + destruct (Hx acc) as [e ->]. by exists e.
    + destruct (step acc y) as [acc'|e]; [by apply IH | by exists e].
Qed.

Lemma add_totals_sum skus totals acc :
  Forall2 has_total skus totals →
  fold_outcome add_total skus acc = fold_outcome py_add totals acc.
Proof.
  intros Hall. revert acc.
  induction Hall as [|sku t skus totals (kvs & -> & Ht) _ IH]; intros acc;
    simpl; [done|].
  unfold add_total at 1; simpl. rewrite Ht.
  by destruct (py_add acc t).
Qed.

Lemma add_rows_items rows itemss acc :
  Forall2 has_items rows itemss →
  fold_outcome add_row rows acc = fold_outcome add_total (concat itemss) acc.
Proof.
  intros Hall. revert acc.
  induction Hall as [|row items rows itemss (kvs & -> & Hi) _ IH]; intros acc;
    simpl; [done|].
  rewrite fold_outcome_app.
  unfold add_row at 1; simpl. rewrite Hi; simpl.
  by destruct (fold_outcome add_total items acc).
Qed.

Lemma py_sum_ints (zs : list Z) (a : Z) :
  fold_outcome py_add (VInt <$> zs) (VInt a) =
  Ok (VInt (a + foldr Z.add 0%Z zs)).
Proof.
  revert a. induction zs as [|z zs IH]; intros a; simpl.
  - by rewrite Z.add_0_r.
  - rewrite IH. by rewrite Z.add_assoc.
Qed.

Lemma total_sales_run self (start_date end_date : DateLike) st :
  get_total_sales_between self start_date end_date st =
  let ep := mk_endpoint self "sales" "estimates" None in
  let q := sold_estimates_query self start_date end_date in
  let r := Endpoint_get_all ep q (world st) in
  (match reply_outcome r with
   | Ok rows => fold_outcome add_row rows (VInt 0)
   | Raise e => Raise e
   end,
   {| heap := <[fresh (dom (heap st)) := reply_query r]>
                (<[fresh (dom (heap st)) := q]> (heap st));
      world := reply_world r;
      calls := calls st ++ [EvGetAll ep q (reply_outcome r)];
      stdout := stdout st |}).
Proof.
  unfold get_total_sales_between, get_sold_estimates_between.
  unfold bind at 1. rewrite fetch_display. simpl.
  destruct (reply_outcome _) as [rows|e]; [|done].
  apply for_in_pure. intros sales row st'.
  unfold bind, lift, add_row.
  destruct (py_getitem row "items") as [items|e]; [|done].
  destruct (py_iter items) as [skus|e]; [|done].
  apply for_in_pure. intros acc sku st''.
  unfold add_total. by destruct (py_getitem sku "total").
Qed.

(** C4. [get_total_sales_between] makes the one fetch of
    [get_sold_estimates_between]; on the records it returns the result is the
    sum, from 0 and in order, of the [total] of every element of the [items]
    array of every record (for int totals, their arithmetic sum); and it
    raises when a record has no [items] or an item has no [total]. *)
Theorem total_sales_sums_line_totals self (start_date end_date : DateLike) st :
  let ep := mk_endpoint self "sales" "estimates" None in
  let q := sold_estimates_query self start_date end_date in
  let reply := reply_outcome (Endpoint_get_all ep q (world st)) in
  let sold := get_sold_estimates_between self start_date end_date st in
  let run := get_total_sales_between self start_date end_date st in
  sold.1 = reply ∧
  calls run.2 = calls st ++ [EvGetAll ep q reply] ∧
  (∀ rows totals,
     reply = Ok rows → line_totals rows totals → run.1 = py_sum totals) ∧
  (∀ rows (zs : list Z),
     reply = Ok rows → line_totals rows (VInt <$> zs) →
     run.1 = Ok (VInt (foldr Z.add 0%Z zs))) ∧
  (∀ rows row,
     reply = Ok rows → row ∈ rows → lacks row "items" →
     ∃ e, run.1 = Raise e) ∧
  (∀ rows row items sku,
     reply = Ok rows → row ∈ rows → has_items row items →
     sku ∈ items → lacks sku "total" →
     ∃ e, run.1 = Raise e).
Proof.
  intros ep q reply sold run.
  assert (∀ rows totals,
    reply = Ok rows → line_totals rows totals → run.1 = py_sum totals) as Hsum.
  { intros rows totals Hreply (itemss & Hitems & Htotals).
    subst run. rewrite total_sales_run; simpl.
    fold ep q reply. rewrite Hreply.
    rewrite (add_rows_items _ _ _ Hitems).
    by apply add_totals_sum. }
  split; [|split; [|split; [|split; [|split]]]].
  - subst sold. unfold get_sold_estimates_between. by rewrite fetch_display.
  - subst run. by rewrite total_sales_run.
  - done.
  - intros rows zs Hreply Htotals.
    rewrite (Hsum _ _ Hreply Htotals). unfold py_sum.
    by rewrite py_sum_ints.
  - intros rows row Hreply Hin (kvs & -> & Hnone).
    subst run. rewrite total_sales_run; simpl.
    fold ep q reply. rewrite Hreply.
    apply (fold_outcome_raises _ _ _ Hin).
    intros acc. exists (KeyError "items").
    unfold add_row; simpl. by rewrite Hnone.
  - intros rows row items sku Hreply Hin (kvs & -> & Hsome) Hsku
      (f & -> & Hnone).
    subst run. rewrite total_sales_run; simpl.
    fold ep q reply. rewrite Hreply.
    apply (fold_outcome_raises _ _ _ Hin).
    intros acc. unfold add_row; simpl. rewrite Hsome; simpl.
    apply (fold_outcome_raises _ _ _ Hsku).
    intros acc'. exists (KeyError "total").
    unfold add_total; simpl. by rewrite Hnone.
Qed.

(** ** The date-range operations *)

Lemma fold_insert_keys (items : list (string * Value)) d k :
  is_Some (fold_left (λ d kv, <[kv.1 := kv.2]> d) items d !! k) →
  k ∈ items.*1 ∨ is_Some (d !! k).
Proof.
  revert d. induction items as [|[k' v] items IH]; intros d; simpl; [by right|].
  intros Hk. destruct (IH _ Hk) as [Hin|Hd].
  - left. by right.
  - apply lookup_insert_is_Some in Hd as [->|[_ Hd]]; [left; by left|by right].
Qed.

Lemma dict_of_keys (items : list (string * Value)) k :
  is_Some (dict_of items !! k) → k ∈ items.*1.
Proof.
  intros Hk. destruct (fold_insert_keys _ _ _ Hk) as [?|Hempty]; [done|].
  rewrite lookup_empty in Hempty. by destruct Hempty.
Qed.

Lemma bounded_dict_of lo hi a b (items : list (string * Value)) :
  dict_of items !! lo = Some a → dict_of items !! hi = Some b →
  items.*1 ⊆ lo :: hi :: other_filters →
  bounded_dict lo hi a b (dict_of items).
Proof.
  intros Hlo Hhi Hsub. repeat split; [done..|].
  intros k Hk. apply Hsub. by apply dict_of_keys.
Qed.

Lemma bounded_with_app_guid lo hi a b app_guid d :
  lo ≠ "externalDataApplicationGuid" → hi ≠ "externalDataApplicationGuid" →
  bounded_dict lo hi a b d → bounded_dict lo hi a b (with_app_guid app_guid d).
Proof.
  intros Hlo Hhi (Ha & Hb & Hkeys). unfold with_app_guid.
  destruct (truthy app_guid); [|done].
  repeat split; [by simplify_map_eq..|].
  intros k Hk. apply lookup_insert_is_Some in Hk as [<-|[_ Hk]]; [|by apply Hkeys].
  unfold other_filters. rewrite !elem_of_cons. auto 10.
Qed.

Lemma single_fetch_bounded ep lo hi a b d st :
  bounded_dict lo hi a b d →
  let run := (let! options := new_dict d in get_all ep options) st in
  ∃ evs, calls run.2 = calls st ++ evs ∧ length evs = 1%nat ∧
         Forall (bounded_query lo hi a b) evs.
Proof.
  intros Hd run. subst run. rewrite fetch_display; simpl.
  eexists. split; [done|]. split; [done|].
  constructor; [|done]. by exists d.
Qed.

Lemma single_fetch_guid_bounded ep lo hi a b app_guid d st :
  lo ≠ "externalDataApplicationGuid" → hi ≠ "externalDataApplicationGuid" →
  bounded_dict lo hi a b d →
  let run := (let! options := new_dict d in
              set_app_guid options app_guid;; get_all ep options) st in
  ∃ evs, calls run.2 = calls st ++ evs ∧ length evs = 1%nat ∧
         Forall (bounded_query lo hi a b) evs.
Proof.
  intros Hlo Hhi Hd run. subst run. rewrite fetch_display_guid; simpl.
  eexists. split; [done|]. split; [done|].
  constructor; [|done]. eexists. split; [done|].
  by apply (bounded_with_app_guid _ _ _ _ app_guid).
Qed.

Lemma loop_fetch_bounded ep query body lo hi a b statuses st :
  answers_page ep query body →
  (∀ status, bounded_dict lo hi a b (query status)) →
  let run := for_in statuses [] body st in
  ∃ evs, calls run.2 = calls st ++ evs ∧
         Forall (bounded_query lo hi a b) evs.
Proof.
  intros Hbody Hq run.
  destruct (for_in_fetches ep query body Hbody statuses [] st)
    as (evs & n & Hcalls & Hpre & _).
  exists evs. split; [done|].
  clear Hcalls. revert evs Hpre.
  induction (take n statuses) as [|s ss IH]; intros [|ev evs] Heq;
    simpl in Heq; try discriminate; constructor.
  - destruct ev as [ep' q r| |]; simpl in Heq; try discriminate.
    injection Heq as _ -> _. by exists (query s).
  - apply IH. by injection Heq.
Qed.

Lemma bind_ret_r {A} (m : M A) st : (let! x := m in ret x) st = m st.
Proof. unfold bind, ret. by destruct (m st) as [[a|e] st']. Qed.

Lemma single_request_shape (A F : list Event → Prop) :
  (∃ evs, A evs ∧ length evs = 1%nat ∧ F evs) →
  ∃ evs, A evs ∧ F evs ∧ (true = true → length evs = 1%nat).
Proof. intros (evs & ? & ? & ?). by exists evs. Qed.

Ltac bounded_display :=
  apply bounded_dict_of;
  [ unfold dict_of; simpl; by simplify_map_eq
  | unfold dict_of; simpl; by simplify_map_eq
  | intros k; simpl; unfold other_filters;
    rewrite !elem_of_cons, elem_of_nil; intuition ].

(** C3, as the code has it.  Every request of every "between" operation
    carries a query with the start date under the operation's lower-bound name
    and the end date under its upper-bound name, both formatted in the bound
    timezone, and besides them only filters that are not dates; the two names
    differ.  They are [{field}OnOrAfter] and [{field}Before] for jobs
    completed, created and modified, appointments, purchase orders, calls
    and bookings, and the names of [bound_keys] for sold estimates, payments
    and invoices.  The dates are not compared. *)
Theorem between_operations_send_two_date_bounds self (op : Between)
    (start_date end_date : DateLike) st :
  let lo := (bound_keys op).1 in
  let hi := (bound_keys op).2 in
  let run := run_between self op start_date end_date st in
  lo ≠ hi ∧
  (on_or_after_and_before op = true →
     lo = date_field op +:+ "OnOrAfter" ∧ hi = date_field op +:+ "Before") ∧
  ∃ evs,
    calls run.2 = calls st ++ evs ∧
    Forall (bounded_query lo hi
              (api_date self start_date) (api_date self end_date)) evs ∧
    (single_request op = true → length evs = 1%nat).
Proof.
  destruct op; simpl; (split; [done|]);
    (split; [first [done | by intros _]|]).
  - (* jobs completed *)
    destruct (loop_fetch_bounded _ _ _
        "completedOnOrAfter" "completedBefore"
        (api_date self start_date) (api_date self end_date)
        (default default_job_status job_status) st
        (jobs_completed_body self start_date end_date app_guid))
      as (evs & Hcalls & Hall).
    { intros status. apply bounded_with_app_guid; [done..|]. bounded_display. }
    exists evs. by repeat split.
  - (* jobs created *)
    destruct (single_fetch_guid_bounded (mk_endpoint self "jpm" "jobs" None)
        "createdOnOrAfter" "createdBefore"
        (api_date self start_date) (api_date self end_date) app_guid
        (dict_of [("createdOnOrAfter", api_date self start_date);
                  ("createdBefore", api_date self end_date)]) st)
      as (evs & Hcalls & Hlen & Hall); [done..|bounded_display|].
    exists evs. by repeat split.
  - (* jobs modified *)
    destruct (single_fetch_guid_bounded (mk_endpoint self "jpm" "jobs" None)
        "modifiedOnOrAfter" "modifiedBefore"
        (api_date self start_date) (api_date self end_date) app_guid
        (dict_of [("modifiedOnOrAfter", api_date self start_date);
                  ("modifiedBefore", api_date self end_date)]) st)
      as (evs & Hcalls & Hlen & Hall); [done..|bounded_display|].
    exists evs. split; [|by split].
    rewrite <- Hcalls. unfold get_jobs_modified_between, bind.
    destruct (new_dict _ st) as [[l|?] st0]; [|done].
    destruct (set_app_guid l app_guid st0) as [[[]|?] st1]; [|done].
    by destruct (get_all _ l st1) as [[?|?] ?].
  - (* appointments *)
    destruct (loop_fetch_bounded _ _ _
        "startsOnOrAfter" "startsBefore"
        (api_date self start_date) (api_date self end_date)
        (default default_appointment_status appointment_status) st
        (appointments_body self start_date end_date))
      as (evs & Hcalls & Hall).
    { intros status. unfold appointments_query. bounded_display. }
    exists evs. by repeat split.
  - apply single_request_shape, single_fetch_bounded. bounded_display.
  - apply single_request_shape, single_fetch_bounded. bounded_display.
  - apply single_request_shape, single_fetch_bounded. bounded_display.
  - apply single_request_shape, single_fetch_bounded. bounded_display.
  - apply single_request_shape, single_fetch_bounded. bounded_display.
  - apply single_request_shape, single_fetch_bounded. bounded_display.
Qed.

(** ** Which version each method requests *)

Lemma emits_silent {A} P (m : M A) :
  (∀ st, calls (m st).2 = calls st) → emits P m.
Proof. intros Hm st. exists []. by rewrite Hm, app_nil_r. Qed.

Lemma emits_ret {A} P (a : A) : emits P (ret a).
Proof. by apply emits_silent. Qed.

Lemma emits_lift {A} P (o : Outcome A) : emits P (lift o).
Proof. by apply emits_silent. Qed.

Lemma emits_new_dict P d : emits P (new_dict d).
Proof. by apply emits_silent. Qed.

Lemma emits_print P line : emits P (print line).
Proof. by apply emits_silent. Qed.

Lemma emits_setitem P l k v : emits P (setitem l k v).
Proof.
  apply emits_silent. intros st. unfold setitem. by destruct (heap st !! l).
Qed.

Lemma emits_set_app_guid P l app_guid : emits P (set_app_guid l app_guid).
Proof.
  unfold set_app_guid. destruct (truthy app_guid);
    [apply emits_setitem | apply emits_ret].
Qed.

Lemma emits_bind {A B} P (m : M A) (k : A → M B) :
  emits P m → (∀ a, emits P (k a)) → emits P (let! x := m in k x).
Proof.
  intros Hm Hk st. destruct (Hm st) as (evs & Hcalls & Hall).
  unfold bind. destruct (m st) as [[a|e] st1]; simpl in *.
  - destruct (Hk a st1) as (evs' & Hcalls' & Hall').
    exists (evs ++ evs'). rewrite Hcalls', Hcalls, <- app_assoc.
    split; [done|]. by apply Forall_app.
  - by exists evs.
Qed.

Lemma emits_for_in {A B} P (xs : list A) (body : B → A → M B) acc :
  (∀ acc x, emits P (body acc x)) → emits P (for_in xs acc body).
Proof.
  intros Hbody. revert acc.
  induction xs as [|x xs IH]; intros acc; simpl.
  - apply emits_ret.
  - apply emits_bind; [apply Hbody | apply IH].
Qed.

Lemma emits_get_all P ep l :
  (∀ q reply, P (EvGetAll ep q reply)) → emits P (get_all ep l).
Proof.
  intros HP st. unfold get_all.
  destruct (heap st !! l) as [q|]; simpl.
  - eexists [_]. split; [done|]. constructor; [apply HP | done].
  - exists []. by rewrite app_nil_r.
Qed.

Lemma emits_get_one_raw P ep id :
  (∀ reply, P (EvGetOneRaw ep id reply)) → emits P (get_one_raw ep id).
Proof.
  intros HP st. unfold get_one_raw.
  destruct (Endpoint_get_one_raw ep id (world st)) as [r w]; simpl.
  eexists [_]. split; [done|]. constructor; [apply HP | done].
Qed.

Lemma emits_update P ep id payload request_type :
  (∀ reply, P (EvUpdate ep id payload request_type reply)) →
  emits P (update ep id payload request_type).
Proof.
  intros HP st. unfold update.
  destruct (Endpoint_update ep id payload request_type (world st)) as [r w];
    simpl.
  eexists [_]. split; [done|]. constructor; [apply HP | done].
Qed.

Ltac emits_step :=
  first
    [ apply emits_ret | apply emits_lift | apply emits_new_dict
    | apply emits_print | apply emits_setitem | apply emits_set_app_guid
    | apply emits_get_all; by intros
    | apply emits_get_one_raw; by intros
    | apply emits_update; by intros
    | apply emits_for_in; intros
    | apply emits_bind; [|intros] ].

Lemma get_api_data_emits self folder endpoint options :
  emits (requests_version "2")
    (get_api_data self folder endpoint options None).
Proof.
  unfold get_api_data. destruct options; simpl; repeat emits_step.
Qed.

Lemma get_jobs_modified_between_run self (start_date end_date : DateLike)
    app_guid st :
  get_jobs_modified_between self start_date end_date app_guid st =
  (let! options := new_dict (dict_of [
     ("modifiedOnOrAfter", api_date self start_date);
     ("modifiedBefore", api_date self end_date)]) in
   set_app_guid options app_guid;;
   get_all (mk_endpoint self "jpm" "jobs" None) options) st.
Proof.
  unfold get_jobs_modified_between, bind.
  destruct (new_dict _ st) as [[l|?] st0]; [|done].
  destruct (set_app_guid l app_guid st0) as [[[]|?] st1]; [|done].
  by destruct (get_all _ l st1) as [[?|?] ?].
Qed.

Lemma for_in_first_fetch ep query body :
  answers_page ep query body →
  ∀ statuses data st,
    ∃ evs,
      calls (for_in statuses data body st).2 = calls st ++ evs ∧
      (match statuses with [] => 0 | _ => 1 end ≤ length evs)%nat.
Proof.
  intros Hbody [|s ss] data st; simpl.
  - exists []. unfold ret; simpl. by rewrite app_nil_r.
  - destruct (Hbody data s st) as (reply & st1 & Hrun & Hcalls).
    unfold bind. rewrite Hrun.
    destruct reply as [page|e].
    + destruct (for_in_fetches ep query body Hbody ss (data ++ page) st1)
        as (evs & _ & Hc & _).
      exists (EvGetAll ep (query s) (Ok page) :: evs).
      split; [rewrite Hc, Hcalls; by rewrite <- app_assoc | simpl; lia].
    + by exists [EvGetAll ep (query s) (Raise e)].
Qed.

Ltac one_request := simpl; eexists [_]; by repeat split.
Ltac no_request := simpl; exists []; rewrite app_nil_r; by repeat split.

(** Every method makes the calls that are due. *)
Lemma requests_due_are_made self (m : Method) st :
  ∃ evs,
    calls (call_method self m st) = calls st ++ evs ∧
    (requests_due m st ≤ length evs)%nat ∧
    (per_status m = false → length evs = requests_due m st).
Proof.
  destruct m as [folder endpoint [l|]
                |folder endpoint start_date end_date modifier [l|]
                |op start_date end_date| | | | | | |ids| | | | |ids| | |];
    simpl.
  - (* get_api_data on a reference *)
    destruct (heap st !! l) as [d|] eqn:Hl.
    + rewrite (get_api_data_given _ _ _ _ _ _ _ Hl). one_request.
    + unfold get_api_data, bind, ret, get_all; simpl. rewrite Hl. no_request.
  - rewrite get_api_data_absent. one_request.
  - (* get_api_data_between on a reference *)
    destruct (heap st !! l) as [d|] eqn:Hl.
    + rewrite (get_api_data_between_run _ _ _ _ _ _ (Some l) _ d) by done.
      rewrite (get_api_data_given _ _ _ l _ _ _ (lookup_insert_eq _ _ _)).
      one_request.
    + unfold get_api_data_between, bind, ret, setitem; simpl. rewrite Hl.
      no_request.
  - rewrite (get_api_data_between_run _ _ _ _ _ _ None _ ∅) by done.
    rewrite (get_api_data_given _ _ _ _ _ _ _ (lookup_insert_eq _ _ _)).
    one_request.
  - destruct op; simpl.
    + destruct (for_in_first_fetch _ _ _
        (jobs_completed_body self start_date end_date app_guid)
        (default default_job_status job_status) [] st) as (evs & Hc & Hlen).
      exists evs. by repeat split.
    + unfold get_jobs_created_between. rewrite fetch_display_guid. one_request.
    + rewrite get_jobs_modified_between_run, fetch_display_guid. one_request.
    + destruct (for_in_first_fetch _ _ _
        (appointments_body self start_date end_date)
        (default default_appointment_status appointment_status) [] st)
        as (evs & Hc & Hlen).
      exists evs. by repeat split.
    + unfold get_sold_estimates_between. rewrite fetch_display. one_request.
    + unfold get_purchase_orders_created_between. rewrite fetch_display.
      one_request.
    + unfold get_calls_between. rewrite fetch_display. one_request.
    + unfold get_bookings_between. rewrite fetch_display. one_request.
    + unfold get_payments_between. rewrite fetch_display. one_request.
    + unfold get_invoices_between. rewrite fetch_display. one_request.
  - rewrite total_sales_run. one_request.
  - unfold get_employees. simpl. rewrite fetch_display. one_request.
  - unfold get_technicians. simpl. rewrite fetch_display. one_request.
  - unfold get_tag_types. simpl. rewrite fetch_display. one_request.
  - unfold get_business_units. simpl. rewrite fetch_display. one_request.
  - unfold get_job_types. simpl. rewrite fetch_display. one_request.
  - (* get_invoices_by_id *)
    pose proof (py_join_ok "," ids) as Hok.
    unfold get_invoices_by_id, bind at 1, lift.
    destruct (py_join "," ids) as [joined|e]; simpl in Hok; rewrite <- Hok.
    + rewrite fetch_display. one_request.
    + no_request.
  - unfold get_estimates_by_job_id. rewrite fetch_display. one_request.
  - unfold get_appointment_assignments_by_job_id. rewrite fetch_display.
    one_request.
  - (* get_technician_by_id *)
    unfold get_technician_by_id, bind, new_dict, get_all, lift; simpl.
    rewrite lookup_insert_eq.
    destruct (reply_outcome _); one_request.
  - unfold get_all_technicians. rewrite fetch_display. one_request.
  - (* get_payments_for_invoices *)
    pose proof (py_join_ok "," ids) as Hok.
    unfold get_payments_for_invoices, bind at 1, lift.
    destruct (py_join "," ids) as [joined|e]; simpl in Hok; rewrite <- Hok.
    + rewrite fetch_display. one_request.
    + no_request.
  - unfold get_all_tag_types. rewrite fetch_display. one_request.
  - (* get_attachment *)
    unfold get_attachment, bind, get_one_raw, ret.
    destruct (Endpoint_get_one_raw _ _ _) as [[r|e] w]; one_request.
  - (* patch_job_external_data *)
    unfold patch_job_external_data, update.
    destruct (Endpoint_update _ _ _ _ _) as [r w]. one_request.
Qed.

(** Every call a method makes goes to the version the method is for. *)
Lemma requests_go_to_method_version self (m : Method) st :
  ∃ evs, calls (call_method self m st) = calls st ++ evs ∧
         Forall (requests_version (if is_calls_between m then "3" else "2"))
           evs.
Proof.
  destruct m as [| |op| | | | | | | | | | | | | | |]; simpl;
    try destruct op; simpl;
    match goal with
    | |- ∃ evs, calls (?run ?st').2 = _ ∧ Forall ?P _ =>
        enough (emits P run) as Hemits by apply Hemits
    end.
  all: try apply get_api_data_emits.
  all: try (unfold get_jobs_completed_between, get_jobs_created_between,
    get_jobs_modified_between, get_appointments_between,
    get_sold_estimates_between, get_purchase_orders_created_between,
    get_calls_between, get_bookings_between, get_payments_between,
    get_invoices_between, get_total_sales_between,
    get_sold_estimates_between, get_employees, get_technicians,
    get_tag_types, get_business_units, get_job_types,
    get_invoices_by_id, get_estimates_by_job_id,
    get_appointment_assignments_by_job_id, get_technician_by_id,
    get_all_technicians, get_payments_for_invoices, get_all_tag_types,
    get_attachment, patch_job_external_data;
    by repeat emits_step).
  unfold get_api_data_between.
  destruct options; simpl; repeat emits_step; apply get_api_data_emits.
Qed.

(** C7. [get_calls_between] makes one request, against version 3.  Every
    other method, called without a [version] of its own, makes its request,
    and makes it against version 2 (through the default of [get_api_data]
    and [get_api_data_between], or through the default of [Endpoint]):
    exactly one request, and at least one from a per-status operation given
    a status; none is due only where no request can be built (ids that are
    not all str, an [options] that is no mapping, no status). *)
Theorem calls_between_requests_version_3 self (m : Method)
    (start_date end_date : DateLike) st :
  (∃ ev, calls (get_calls_between self start_date end_date st).2
         = calls st ++ [ev] ∧
         requests_version "3" ev) ∧
  (∃ evs, calls (call_method self m st) = calls st ++ evs ∧
          Forall (requests_version (if is_calls_between m then "3" else "2"))
            evs ∧
          (requests_due m st ≤ length evs)%nat ∧
          (per_status m = false → length evs = requests_due m st)).
Proof.
  split.
  - unfold get_calls_between. rewrite fetch_display; simpl. by eexists.
  - destruct (requests_go_to_method_version self m st) as (evs & Hcalls & Hall).
    destruct (requests_due_are_made self m st) as (evs' & Hcalls' & Hdue).
    rewrite Hcalls in Hcalls'. apply app_inv_head in Hcalls' as <-.
    by exists evs.
Qed.

End properties.

(** * Further properties of the methods *)

Section further.
Context `{FloatOps} `{Carriers} `{!Collaborator}.
Implicit Types (self : DataService) (st : State) (ep : Endpoint).
Implicit Types (q d : gmap string Value) (v status : Value).

(** ** Failing fetches *)

Lemma for_in_fail_fast ep query body :
  answers_page ep query body →
  ∀ statuses data st,
    let run := for_in statuses data body st in
    ∃ evs,
      calls run.2 = calls st ++ evs ∧
      is_ok run.1 = forallb ev_answered evs ∧
      (length evs ≤ length statuses)%nat ∧
      match run.1 with
      | Raise e =>
          ∃ front q, evs = front ++ [EvGetAll ep q (Raise e)] ∧
                     forallb ev_answered front = true
      | Ok _ => True
      end.
Proof.
  intros Hbody statuses.
  induction statuses as [|s ss IH]; intros data st; simpl.
  - exists []. unfold ret; simpl. by rewrite app_nil_r.
  - destruct (Hbody data s st) as (reply & st1 & Hrun & Hcalls).
    unfold bind. rewrite Hrun.
    destruct reply as [page|e].
    + destruct (IH (data ++ page) st1) as (evs & Hc & Hok & Hlen & Hlast).
      exists (EvGetAll ep (query s) (Ok page) :: evs).
      split; [rewrite Hc, Hcalls; by rewrite <- app_assoc|].
      split; [done|]. split; [simpl; lia|].
      destruct (for_in ss (data ++ page) body st1).1 as [?|e]; [done|].
      destruct Hlast as (front & q & -> & Hfront).
      by exists (EvGetAll ep (query s) (Ok page) :: front), q.
    + exists [EvGetAll ep (query s) (Raise e)]; simpl.
      split; [done|]. split; [done|]. split; [lia|].
      by exists [], (query s).
Qed.

(** On dates the formatter accepts, the run is Ok exactly when every fetch it
    made was answered; when it raises, it raises the exception of its last
    fetch, every fetch before that one was answered (their pages are
    dropped), and no fetch follows; never more fetches than statuses. *)
Lemma per_status_fail_fast_on_accepted_dates self
    (start_date end_date : DateLike) (statuses : option (list Value))
    (app_guid : Value) st :
  (let given := default default_job_status statuses in
   let ep := mk_endpoint self "jpm" "jobs" None in
   let run :=
     get_jobs_completed_between self start_date end_date statuses app_guid st in
   ∃ evs,
     calls run.2 = calls st ++ evs ∧
     is_ok run.1 = forallb ev_answered evs ∧
     (length evs ≤ length given)%nat ∧
     match run.1 with
     | Raise e =>
         ∃ front q, evs = front ++ [EvGetAll ep q (Raise e)] ∧
                    forallb ev_answered front = true
     | Ok _ => True
     end) ∧
  (let given := default default_appointment_status statuses in
   let ep := mk_endpoint self "jpm" "appointments" None in
   let run := get_appointments_between self start_date end_date statuses st in
   ∃ evs,
     calls run.2 = calls st ++ evs ∧
     is_ok run.1 = forallb ev_answered evs ∧
     (length evs ≤ length given)%nat ∧
     match run.1 with
     | Raise e =>
         ∃ front q, evs = front ++ [EvGetAll ep q (Raise e)] ∧
                    forallb ev_answered front = true
     | Ok _ => True
     end).
Proof.
  split.
  - apply (for_in_fail_fast _ _ _
      (jobs_completed_body self start_date end_date app_guid)).
  - apply (for_in_fail_fast _ _ _
      (appointments_body self start_date end_date)).
Qed.

Lemma for_in_ext {A B} (body body' : B → A → M B) :
  (∀ acc x st, body acc x st = body' acc x st) →
  ∀ xs acc st, for_in xs acc body st = for_in xs acc body' st.
Proof.
  intros Hext xs.
  induction xs as [|x xs IH]; intros acc st; simpl; [done|].
  unfold bind. rewrite Hext.
  destruct (body' acc x st) as [[acc'|e] st1]; [apply IH | done].
Qed.

Section any_dates.
Context {AnyDate : Type} (accept_date : AnyDate → Timezone → Outcome DateLike).

Lemma jobs_completed_on_accepted_dates self (start_date end_date : AnyDate)
    statuses app_guid st s e :
  accept_date start_date (timezone self) = Ok s →
  accept_date end_date (timezone self) = Ok e →
  get_jobs_completed_between_unchecked accept_date self start_date end_date
    statuses app_guid st =
  get_jobs_completed_between self s e statuses app_guid st.
Proof.
  intros Hs He.
  unfold get_jobs_completed_between_unchecked, get_jobs_completed_between.
  apply for_in_ext. intros data status st'.
  unfold convert_date, bind at 1 2, lift. by rewrite Hs, He.
Qed.

Lemma appointments_on_accepted_dates self (start_date end_date : AnyDate)
    statuses st s e :
  accept_date start_date (timezone self) = Ok s →
  accept_date end_date (timezone self) = Ok e →
  get_appointments_between_unchecked accept_date self start_date end_date
    statuses st =
  get_appointments_between self s e statuses st.
Proof.
  intros Hs He.
  unfold get_appointments_between_unchecked, get_appointments_between.
  apply for_in_ext. intros data status st'.
  unfold convert_date, bind at 1 2, lift. by rewrite Hs, He.
Qed.

(** X1. The per-status operations on dates of any kind.  With no status
    nothing is formatted or fetched and the result is the empty list.
    Otherwise a date the formatter rejects (the start date first) ends the
    call with the formatter's exception before any request and with the state
    as it was.  With both dates accepted the call is the one on the accepted
    dates, which fails fast: it is Ok exactly when every fetch it made was
    answered; when it raises, it raises the exception of its last fetch,
    every fetch before that one was answered (their pages are dropped) and
    no fetch follows.  Never more fetches than statuses. *)
Theorem per_status_operations_fail_fast self
    (start_date end_date : AnyDate) (statuses : option (list Value))
    (app_guid : Value) st :
  let accepted date := accept_date date (timezone self) in
  (let given := default default_job_status statuses in
   let ep := mk_endpoint self "jpm" "jobs" None in
   let run :=
     get_jobs_completed_between_unchecked accept_date self
       start_date end_date statuses app_guid st in
   ∃ evs,
     calls run.2 = calls st ++ evs ∧
     (length evs ≤ length given)%nat ∧
     match given, accepted start_date, accepted end_date with
     | [], _, _ => run = (Ok [], st) ∧ evs = []
     | _ :: _, Raise e, _ => run = (Raise e, st) ∧ evs = []
     | _ :: _, Ok _, Raise e => run = (Raise e, st) ∧ evs = []
     | _ :: _, Ok s, Ok e =>
         run = get_jobs_completed_between self s e statuses app_guid st ∧
         is_ok run.1 = forallb ev_answered evs ∧
         match run.1 with
         | Raise e =>
             ∃ front q, evs = front ++ [EvGetAll ep q (Raise e)] ∧
                        forallb ev_answered front = true
         | Ok _ => True
         end
     end) ∧
  (let given := default default_appointment_status statuses in
   let ep := mk_endpoint self "jpm" "appointments" None in
   let run :=
     get_appointments_between_unchecked accept_date self
       start_date end_date statuses st in
   ∃ evs,
     calls run.2 = calls st ++ evs ∧
     (length evs ≤ length given)%nat ∧
     match given, accepted start_date, accepted end_date with
     | [], _, _ => run = (Ok [], st) ∧ evs = []
     | _ :: _, Raise e, _ => run = (Raise e, st) ∧ evs = []
     | _ :: _, Ok _, Raise e => run = (Raise e, st) ∧ evs = []
     | _ :: _, Ok s, Ok e =>
         run = get_appointments_between self s e statuses st ∧
         is_ok run.1 = forallb ev_answered evs ∧
         match run.1 with
         | Raise e =>
             ∃ front q, evs = front ++ [EvGetAll ep q (Raise e)] ∧
                        forallb ev_answered front = true
         | Ok _ => True
         end
     end).
Proof.
  intros accepted. subst accepted. split.
  - intros given ep run.
    destruct (accept_date start_date (timezone self)) as [s|e] eqn:Hs;
      [destruct (accept_date end_date (timezone self)) as [e|e] eqn:He|].
    + assert (run = get_jobs_completed_between self s e statuses app_guid st)
        as Hrun by by apply jobs_completed_on_accepted_dates.
      destruct (per_status_fail_fast_on_accepted_dates self s e statuses
          app_guid st) as [(evs & Hcalls & Hok & Hlen & Hlast) _].
      rewrite <- Hrun in Hcalls, Hok, Hlast.
      exists evs. split; [done|]. split; [done|].
      subst given.
      destruct (default default_job_status statuses) as [|x xs] eqn:Hgiven; [|done].
      apply Nat.le_0_r, length_zero_iff_nil in Hlen as ->.
      split; [|done]. subst run.
      unfold get_jobs_completed_between_unchecked. by rewrite Hgiven.
    + exists []. rewrite app_nil_r. subst run given.
      unfold get_jobs_completed_between_unchecked.
      destruct (default default_job_status statuses) as [|x xs]; simpl;
        [by repeat split|].
      unfold bind, convert_date, lift. rewrite Hs, He.
      repeat split; simpl; lia.
    + exists []. rewrite app_nil_r. subst run given.
      unfold get_jobs_completed_between_unchecked.
      destruct (default default_job_status statuses) as [|x xs]; simpl;
        [by repeat split|].
      unfold bind, convert_date, lift. rewrite Hs.
      repeat split; simpl; lia.
  - intros given ep run.
    destruct (accept_date start_date (timezone self)) as [s|e] eqn:Hs;
      [destruct (accept_date end_date (timezone self)) as [e|e] eqn:He|].
    + assert (run = get_appointments_between self s e statuses st)
        as Hrun by by apply appointments_on_accepted_dates.
      destruct (per_status_fail_fast_on_accepted_dates self s e statuses
          app_guid st) as [_ (evs & Hcalls & Hok & Hlen & Hlast)].
      rewrite <- Hrun in Hcalls, Hok, Hlast.
      exists evs. split; [done|]. split; [done|].
      subst given.
      destruct (default default_appointment_status statuses) as [|x xs] eqn:Hgiven; [|done].
      apply Nat.le_0_r, length_zero_iff_nil in Hlen as ->.
      split; [|done]. subst run.
      unfold get_appointments_between_unchecked. by rewrite Hgiven.
    + exists []. rewrite app_nil_r. subst run given.
      unfold get_appointments_between_unchecked.
      destruct (default default_appointment_status statuses) as [|x xs]; simpl;
        [by repeat split|].
      unfold bind, convert_date, lift. rewrite Hs, He.
      repeat split; simpl; lia.
    + exists []. rewrite app_nil_r. subst run given.
      unfold get_appointments_between_unchecked.
      destruct (default default_appointment_status statuses) as [|x xs]; simpl;
        [by repeat split|].
      unfold bind, convert_date, lift. rewrite Hs.
      repeat split; simpl; lia.
Qed.

End any_dates.

(** ** What the queries hold *)

Lemma single_fetch_sends (Q : gmap string Value → Prop) ep d st :
  Q d →
  let run := (let! options := new_dict d in get_all ep options) st in
  ∃ evs, calls run.2 = calls st ++ evs ∧ Forall (sends Q) evs.
Proof.
  intros Hd run. subst run. rewrite fetch_display; simpl.
  eexists. split; [done|]. constructor; [by exists d | done].
Qed.

Lemma single_fetch_guid_sends (Q : gmap string Value → Prop) ep d app_guid st :
  Q (with_app_guid app_guid d) →
  let run := (let! options := new_dict d in
              set_app_guid options app_guid;; get_all ep options) st in
  ∃ evs, calls run.2 = calls st ++ evs ∧ Forall (sends Q) evs.
Proof.
  intros Hd run. subst run. rewrite fetch_display_guid; simpl.
  eexists. split; [done|]. constructor; [|done]. eexists. by split.
Qed.

Lemma loop_fetch_sends (Q : gmap string Value → Prop) ep query body
    statuses st :
  answers_page ep query body →
  (∀ status, Q (query status)) →
  let run := for_in statuses [] body st in
  ∃ evs, calls run.2 = calls st ++ evs ∧ Forall (sends Q) evs.
Proof.
  intros Hbody Hq run.
  destruct (for_in_fetches ep query body Hbody statuses [] st)
    as (evs & n & Hcalls & Hpre & _).
  exists evs. split; [done|].
  clear Hcalls. revert evs Hpre.
  induction (take n statuses) as [|s ss IH]; intros [|ev evs] Heq;
    simpl in Heq; try discriminate; constructor.
  - destruct ev as [ep' q r| |]; simpl in Heq; try discriminate.
    injection Heq as _ -> _. by exists (query s).
  - apply IH. by injection Heq.
Qed.

Ltac guid_display :=
  unfold with_app_guid, dict_of; simpl;
  repeat match goal with |- context [truthy ?g] => destruct (truthy g) end;
  by simplify_map_eq.

(** X2. A date-range operation sends [externalDataApplicationGuid] exactly
    when it has an [app_guid] that is truthy, and then with that value: None
    and the empty string are left out, and so is the key in every operation
    without the parameter. *)
Theorem app_guid_sent_when_truthy self (op : Between)
    (start_date end_date : DateLike) st :
  let run := run_between self op start_date end_date st in
  let app_guid := app_guid_of op in
  truthy VNone = false ∧ truthy (VStr "") = false ∧
  ∃ evs,
    calls run.2 = calls st ++ evs ∧
    Forall (sends (λ q,
      q !! "externalDataApplicationGuid" =
      if truthy app_guid then Some app_guid else None)) evs.
Proof.
  split; [done|]. split; [done|].
  destruct op; simpl.
  - apply (loop_fetch_sends _ _ _ _ _ _
      (jobs_completed_body self start_date end_date app_guid)).
    intros status. unfold jobs_completed_query. guid_display.
  - apply single_fetch_guid_sends. guid_display.
  - rewrite get_jobs_modified_between_run.
    apply single_fetch_guid_sends. guid_display.
  - apply (loop_fetch_sends _ _ _ _ _ _
      (appointments_body self start_date end_date)).
    intros status. unfold appointments_query. guid_display.
  - apply single_fetch_sends. guid_display.
  - apply single_fetch_sends. guid_display.
  - apply single_fetch_sends. guid_display.
  - apply single_fetch_sends. guid_display.
  - apply single_fetch_sends. guid_display.
  - apply single_fetch_sends. guid_display.
Qed.

(** ** Joined ids *)

Lemma py_join_strings sep (ss : list string) :
  py_join sep (VStr <$> ss) = Ok (String.concat sep ss).
Proof.
  induction ss as [|s ss IH]; [done|].
  destruct ss as [|t ss]; [done|].
  change (py_join sep (VStr <$> s :: t :: ss)) with
    (match py_join sep (VStr <$> t :: ss) with
     | Ok r => Ok (s +:+ sep +:+ r)
     | Raise e => Raise e
     end).
  by rewrite IH.
Qed.

(** X3. With ids that are all strings, [get_invoices_by_id] and
    [get_payments_for_invoices] make one request whose only filter ([ids],
    [appliedToInvoiceIds]) is the ids joined by commas, and return its
    outcome; an empty list is not special: the request goes out with the
    empty string as the filter. *)
Theorem string_ids_are_comma_joined self (ss : list string) st :
  let invoices := mk_endpoint self "accounting" "invoices" None in
  let payments := mk_endpoint self "accounting" "payments" None in
  let joined := VStr (String.concat "," ss) in
  let q : gmap string Value := {[ "ids" := joined ]} in
  let q' : gmap string Value := {[ "appliedToInvoiceIds" := joined ]} in
  let run := get_invoices_by_id self (VStr <$> ss) st in
  let run' := get_payments_for_invoices self (VStr <$> ss) st in
  let reply := reply_outcome (Endpoint_get_all invoices q (world st)) in
  let reply' := reply_outcome (Endpoint_get_all payments q' (world st)) in
  String.concat "," [] = "" ∧
  run.1 = reply ∧ calls run.2 = calls st ++ [EvGetAll invoices q reply] ∧
  run'.1 = reply' ∧ calls run'.2 = calls st ++ [EvGetAll payments q' reply'].
Proof.
  intros invoices payments joined q q' run run' reply reply'.
  assert (run = (let! options := new_dict q in get_all invoices options) st)
    as ->.
  { subst run. unfold get_invoices_by_id, bind at 1, lift.
    rewrite py_join_strings. unfold dict_of; simpl. by rewrite insert_empty. }
  assert (run' = (let! options := new_dict q' in get_all payments options) st)
    as ->.
  { subst run'. unfold get_payments_for_invoices, bind at 1, lift.
    rewrite py_join_strings. unfold dict_of; simpl. by rewrite insert_empty. }
  by rewrite !fetch_display.
Qed.

(** ** The running total *)

Lemma py_add_number (a b : Value) :
  is_number a = true →
  match py_add a b with
  | Ok r => is_number r = true ∧ is_numeric b = true
  | Raise e =>
      (e = TypeError ∧ is_numeric b = false) ∨
      (e = OverflowError ∧ is_numeric b = true)
  end.
Proof.
  destruct a as [| |x|f| | |]; try done; intros _;
    destruct b as [|y|y|g| | |]; simpl; auto;
    unfold to_float; by destruct (float_of_int _); simpl; auto.
Qed.

Lemma add_total_number (sales sku : Value) :
  is_number sales = true →
  match add_total sales sku with
  | Ok r => is_number r = true
  | Raise _ => True
  end.
Proof.
  intros Hn. unfold add_total.
  destruct (py_getitem sku "total") as [t|]; [|done].
  pose proof (py_add_number sales t Hn) as Hadd.
  destruct (py_add sales t); [by destruct Hadd | done].
Qed.

Lemma fold_outcome_invariant {A B} (P : B → Prop) (step : B → A → Outcome B) :
  (∀ acc x, P acc →
     match step acc x with Ok r => P r | Raise _ => True end) →
  ∀ xs acc, P acc →
    match fold_outcome step xs acc with Ok r => P r | Raise _ => True end.
Proof.
  intros Hstep xs.
  induction xs as [|x xs IH]; intros acc Hacc; simpl; [done|].
  pose proof (Hstep acc x Hacc) as Hx.
  destruct (step acc x); [by apply IH | done].
Qed.

Lemma add_row_number (sales row : Value) :
  is_number sales = true →
  match add_row sales row with
  | Ok r => is_number r = true
  | Raise _ => True
  end.
Proof.
  intros Hn. unfold add_row.
  destruct (py_getitem row "items") as [items|]; [|done].
  destruct (py_iter items) as [skus|]; [|done].
  by apply (fold_outcome_invariant (λ v, is_number v = true) add_total
              add_total_number).
Qed.

(** X4. Whatever records come back, a total that [get_total_sales_between]
    returns is an int or a float (never a bool, a str or None), and on no
    records at all it is the int 0. *)
Theorem total_sales_is_a_number self (start_date end_date : DateLike) st :
  let ep := mk_endpoint self "sales" "estimates" None in
  let q := sold_estimates_query self start_date end_date in
  let reply := reply_outcome (Endpoint_get_all ep q (world st)) in
  let run := get_total_sales_between self start_date end_date st in
  match run.1 with
  | Ok total => is_number total = true
  | Raise _ => True
  end ∧
  match reply with
  | Ok [] => run.1 = Ok (VInt 0)
  | _ => True
  end.
Proof.
  intros ep q reply run. subst run.
  rewrite total_sales_run; simpl. fold ep q reply.
  destruct reply as [rows|e]; [|done]. split.
  - by apply (fold_outcome_invariant (λ v, is_number v = true) add_row
                add_row_number).
  - by destruct rows.
Qed.

Lemma py_sum_not_numeric (totals : list Value) t acc :
  is_number acc = true → t ∈ totals → is_numeric t = false →
  fold_outcome py_add totals acc = Raise TypeError ∨
  fold_outcome py_add totals acc = Raise OverflowError.
Proof.
  intros Hacc Hin Ht. revert acc Hacc.
  induction totals as [|x xs IH]; intros acc Hacc; simpl.
  - by apply not_elem_of_nil in Hin.
  - pose proof (py_add_number acc x Hacc) as Hadd.
    apply elem_of_cons in Hin as [<-|Hin].
    + destruct (py_add acc t) as [r|e].
      * destruct Hadd. congruence.
      * destruct Hadd as [[-> _]|[_ ?]]; [by left | congruence].
    + destruct (py_add acc x) as [r|e].
      * destruct Hadd. by apply IH.
      * destruct Hadd as [[-> _]|[-> _]]; [by left | by right].
Qed.

(** X5. When the records are well formed (every record has an [items] array,
    every item a [total]) but some total is not an int, a float or a bool,
    [get_total_sales_between] raises TypeError, unless converting an int that
    is too large for a float has raised OverflowError before. *)
Theorem total_sales_rejects_non_numeric_total self
    (start_date end_date : DateLike) st rows totals t :
  let ep := mk_endpoint self "sales" "estimates" None in
  let q := sold_estimates_query self start_date end_date in
  let reply := reply_outcome (Endpoint_get_all ep q (world st)) in
  let run := get_total_sales_between self start_date end_date st in
  reply = Ok rows → line_totals rows totals →
  t ∈ totals → is_numeric t = false →
  run.1 = Raise TypeError ∨ run.1 = Raise OverflowError.
Proof.
  intros ep q reply run Hreply (itemss & Hitems & Htotals) Hin Ht.
  subst run. rewrite total_sales_run; simpl. fold ep q reply.
  rewrite Hreply, (add_rows_items _ _ _ Hitems),
    (add_totals_sum _ _ _ Htotals).
  by apply (py_sum_not_numeric totals t).
Qed.

(** X6. The two methods that work on the records after the fetch,
    [get_technician_by_id] and [get_total_sales_between], raise the
    collaborator's exception as it is when their one fetch fails. *)
Theorem fetch_failure_is_raised_unchanged self (tech_id : Value)
    (start_date end_date : DateLike) st :
  let technicians := mk_endpoint self "settings" "technicians" None in
  let estimates := mk_endpoint self "sales" "estimates" None in
  let q : gmap string Value := {[ "ids" := tech_id ]} in
  let q' := sold_estimates_query self start_date end_date in
  let reply := reply_outcome (Endpoint_get_all technicians q (world st)) in
  let reply' := reply_outcome (Endpoint_get_all estimates q' (world st)) in
  let run := get_technician_by_id self tech_id st in
  let run' := get_total_sales_between self start_date end_date st in
  match reply with
  | Raise e =>
      run.1 = Raise e ∧
      calls run.2 = calls st ++ [EvGetAll technicians q (Raise e)]
  | Ok _ => True
  end ∧
  match reply' with
  | Raise e =>
      run'.1 = Raise e ∧
      calls run'.2 = calls st ++ [EvGetAll estimates q' (Raise e)]
  | Ok _ => True
  end.
Proof.
  intros technicians estimates q q' reply reply' run run'. split.
  - subst run reply.
    unfold get_technician_by_id, bind, new_dict, get_all, lift, dict_of; simpl.
    rewrite lookup_insert_eq, insert_empty. fold technicians q.
    by destruct (reply_outcome (Endpoint_get_all technicians q (world st))).
  - subst run' reply'. rewrite total_sales_run; simpl.
    fold estimates q'.
    by destruct (reply_outcome (Endpoint_get_all estimates q' (world st))).
Qed.

(** ** One mapping used twice *)

(** X7. A mapping object passed to [get_api_data_between] twice carries the
    first call's date keys into the second request: with a collaborator that
    left the mapping of the first call as it was, the query of the second
    call is the first merged mapping with the second pair of keys written on
    top, so every key of the first call that the second does not write is
    sent again. *)
Theorem between_twice_resends_first_bounds self folder endpoint
    (start1 end1 start2 end2 : DateLike) (field1 field2 : option string)
    l version d st :
  heap st !! l = Some d →
  let lo1 := default "completed" field1 +:+ "OnOrAfter" in
  let hi1 := default "completed" field1 +:+ "Before" in
  let lo2 := default "completed" field2 +:+ "OnOrAfter" in
  let hi2 := default "completed" field2 +:+ "Before" in
  let merged1 :=
    <[hi1 := api_date self end1]> (<[lo1 := api_date self start1]> d) in
  let merged2 :=
    <[hi2 := api_date self end2]> (<[lo2 := api_date self start2]> merged1) in
  let ep :=
    mk_endpoint self folder endpoint (Some (default (VerInt 2) version)) in
  let first :=
    get_api_data_between self folder endpoint start1 end1 field1 (Some l)
      version st in
  let second :=
    get_api_data_between self folder endpoint start2 end2 field2 (Some l)
      version first.2 in
  reply_query (Endpoint_get_all ep merged1 (world st)) = merged1 →
  (∃ reply, calls second.2 = calls first.2 ++ [EvGetAll ep merged2 reply]) ∧
  (∀ k, k ≠ lo2 → k ≠ hi2 → merged2 !! k = merged1 !! k).
Proof.
  intros Hl lo1 hi1 lo2 hi2 merged1 merged2 ep first second Hsame.
  split; [|intros k ? ?; subst merged2; by simplify_map_eq].
  assert (heap first.2 !! l = Some merged1) as Hl1.
  { subst first.
    rewrite (get_api_data_between_run _ _ _ _ _ _ (Some l) _ d) by done.
    rewrite (get_api_data_given _ _ _ l _ merged1)
      by (simpl; by rewrite lookup_insert_eq).
    simpl. fold ep. by rewrite Hsame, lookup_insert_eq. }
  subst second.
  rewrite (get_api_data_between_run _ _ _ _ _ _ (Some l) _ merged1) by done.
  rewrite (get_api_data_given _ _ _ l _ merged2)
    by (simpl; by rewrite lookup_insert_eq).
  simpl. by eexists.
Qed.

(** ** What the methods leave alone *)

Lemma quiet_ret {A} (a : A) : quiet (ret a).
Proof. done. Qed.

Lemma quiet_lift {A} (o : Outcome A) : quiet (lift o).
Proof. done. Qed.

Lemma quiet_new_dict d : quiet (new_dict d).
Proof. done. Qed.

Lemma quiet_setitem l k v : quiet (setitem l k v).
Proof. intros st. unfold setitem. by destruct (heap st !! l). Qed.

Lemma quiet_set_app_guid l app_guid : quiet (set_app_guid l app_guid).
Proof.
  unfold set_app_guid. destruct (truthy app_guid);
    [apply quiet_setitem | apply quiet_ret].
Qed.

Lemma quiet_get_all ep l : quiet (get_all ep l).
Proof. intros st. unfold get_all. by destruct (heap st !! l). Qed.

Lemma quiet_get_one_raw ep id : quiet (get_one_raw ep id).
Proof.
  intros st. unfold get_one_raw.
  by destruct (Endpoint_get_one_raw ep id (world st)).
Qed.

Lemma quiet_update ep id payload request_type :
  quiet (update ep id payload request_type).
Proof.
  intros st. unfold update.
  by destruct (Endpoint_update ep id payload request_type (world st)).
Qed.

Lemma quiet_bind {A B} (m : M A) (k : A → M B) :
  quiet m → (∀ a, quiet (k a)) → quiet (let! x := m in k x).
Proof.
  intros Hm Hk st. unfold bind. specialize (Hm st).
  destruct (m st) as [[a|e] st1]; simpl in *; [|done].
  by rewrite Hk.
Qed.

Lemma quiet_for_in {A B} (xs : list A) (body : B → A → M B) acc :
  (∀ acc x, quiet (body acc x)) → quiet (for_in xs acc body).
Proof.
  intros Hbody. revert acc.
  induction xs as [|x xs IH]; intros acc; simpl.
  - apply quiet_ret.
  - apply quiet_bind; [apply Hbody | apply IH].
Qed.

Ltac quiet_step :=
  first
    [ apply quiet_ret | apply quiet_lift | apply quiet_new_dict
    | apply quiet_setitem | apply quiet_set_app_guid | apply quiet_get_all
    | apply quiet_get_one_raw | apply quiet_update
    | apply quiet_for_in; intros
    | apply quiet_bind; [|intros] ].

Ltac unfold_methods :=
  unfold run_between, get_api_data_between, get_api_data,
    get_jobs_completed_between, get_jobs_created_between,
    get_jobs_modified_between, get_appointments_between,
    get_sold_estimates_between, get_purchase_orders_created_between,
    get_calls_between, get_bookings_between, get_payments_between,
    get_invoices_between, get_total_sales_between,
    get_employees, get_technicians, get_tag_types, get_business_units,
    get_job_types, get_invoices_by_id, get_estimates_by_job_id,
    get_appointment_assignments_by_job_id, get_technician_by_id,
    get_all_technicians, get_payments_for_invoices, get_all_tag_types,
    get_attachment, patch_job_external_data.

(** X8. The only thing any method prints is the warning of [get_api_data]
    called without options: every other call, [get_api_data_between] without
    options included, leaves standard output as it was. *)
Theorem only_get_api_data_without_options_prints self (m : Method) st :
  stdout (call_method self m st) = stdout st ++ printed m.
Proof.
  destruct m as [folder endpoint [l|]| |op| | | | | | | | | | | | | | |];
    simpl; rewrite ?app_nil_r.
  4: destruct op; simpl.
  2: by rewrite get_api_data_absent.
  all: match goal with
       | |- stdout (?run ?st').2 = _ =>
           enough (quiet run) as Hquiet by apply Hquiet
       end.
  all: unfold_methods;
    repeat match goal with
           | |- context [match ?o with Some _ => _ | None => _ end] =>
               destruct o
           end;
    by repeat quiet_step.
Qed.

Lemma guards_ret (D : gset nat) {A} (Q : A → Prop) (a : A) :
  Q a → guards D Q (ret a).
Proof. by intros Ha st HD. Qed.

Lemma guards_lift (D : gset nat) {A} (o : Outcome A) :
  guards D (λ _, True) (lift o).
Proof. intros st HD. simpl. by destruct o. Qed.

Lemma guards_new_dict (D : gset nat) d : guards D (λ l, l ∉ D) (new_dict d).
Proof.
  intros st HD. simpl.
  pose proof (is_fresh (dom (heap st))) as Hfresh.
  split; [|split].
  - intros l Hl. apply lookup_insert_ne. intros <-. by apply Hfresh, HD.
  - rewrite dom_insert_L. set_solver.
  - intros Hl. by apply Hfresh, HD.
Qed.

Lemma guards_setitem (D : gset nat) l k v :
  l ∉ D → guards D (λ _, True) (setitem l k v).
Proof.
  intros Hl st HD. unfold setitem.
  destruct (heap st !! l) as [d|]; simpl; [|done].
  split; [|split; [|done]].
  - intros l' Hl'. apply lookup_insert_ne. by intros <-.
  - rewrite dom_insert_L. set_solver.
Qed.

Lemma guards_set_app_guid (D : gset nat) l app_guid :
  l ∉ D → guards D (λ _, True) (set_app_guid l app_guid).
Proof.
  intros Hl. unfold set_app_guid. destruct (truthy app_guid);
    [by apply guards_setitem | by apply guards_ret].
Qed.

Lemma guards_get_all (D : gset nat) ep l :
  l ∉ D → guards D (λ _, True) (get_all ep l).
Proof.
  intros Hl st HD. unfold get_all.
  destruct (heap st !! l) as [q|]; simpl; [|done].
  split; [|split; [|by destruct (reply_outcome _)]].
  - intros l' Hl'. apply lookup_insert_ne. by intros <-.
  - rewrite dom_insert_L. set_solver.
Qed.

Lemma guards_print (D : gset nat) line : guards D (λ _, True) (print line).
Proof. by intros st HD. Qed.

Lemma guards_get_one_raw (D : gset nat) ep id :
  guards D (λ _, True) (get_one_raw ep id).
Proof.
  intros st HD. unfold get_one_raw.
  destruct (Endpoint_get_one_raw ep id (world st)) as [[?|?] ?]; by simpl.
Qed.

Lemma guards_update (D : gset nat) ep id payload request_type :
  guards D (λ _, True) (update ep id payload request_type).
Proof.
  intros st HD. unfold update.
  destruct (Endpoint_update ep id payload request_type (world st))
    as [[?|?] ?]; by simpl.
Qed.

Lemma guards_bind (D : gset nat) {A B} (Q : A → Prop) (R : B → Prop)
    (m : M A) (k : A → M B) :
  guards D Q m → (∀ a, Q a → guards D R (k a)) →
  guards D R (let! x := m in k x).
Proof.
  intros Hm Hk st HD. destruct (Hm st HD) as (Hframe & Hdom & HQ).
  unfold bind. destruct (m st) as [[a|e] st1]; simpl in *; [|done].
  destruct (Hk a HQ st1 Hdom) as (Hframe' & Hdom' & HR).
  split; [|done]. intros l Hl. by rewrite Hframe', Hframe.
Qed.

Lemma guards_for_in (D : gset nat) {A B} (xs : list A) (body : B → A → M B)
    acc :
  (∀ acc x, guards D (λ _, True) (body acc x)) →
  guards D (λ _, True) (for_in xs acc body).
Proof.
  intros Hbody. revert acc.
  induction xs as [|x xs IH]; intros acc; simpl.
  - by apply guards_ret.
  - eapply guards_bind; [apply Hbody | intros; apply IH].
Qed.

Ltac guards_step :=
  first
    [ by apply guards_ret | apply guards_lift | apply guards_print
    | apply guards_get_one_raw | apply guards_update
    | by apply guards_setitem | by apply guards_set_app_guid
    | by apply guards_get_all
    | apply guards_for_in; intros
    | eapply guards_bind; [apply guards_new_dict | intros]
    | match goal with
      | |- guards ?D _ (bind (ret ?a) _) =>
          apply (guards_bind D (λ x, x ∉ D)); [by apply guards_ret | intros]
      end
    | eapply guards_bind; [|intros] ].

(** X9. No method touches a mapping object it was not given: whatever the
    collaborator does to the queries it is handed, a mapping the caller
    holds is the same after the call, unless it is the [options] passed to
    [get_api_data] or [get_api_data_between]. *)
Theorem callers_mappings_are_left_alone self (m : Method) l d st :
  heap st !! l = Some d →
  method_options m ≠ Some l →
  heap (call_method self m st) !! l = Some d.
Proof.
  intros Hl Hm.
  assert (({[l]} : gset nat) ⊆ dom (heap st)) as HD.
  { apply singleton_subseteq_l, elem_of_dom. by eexists. }
  assert (l ∈ ({[l]} : gset nat)) as Hin by set_solver.
  assert (∀ l', method_options m = Some l' → l' ∉ ({[l]} : gset nat)) as Hm'.
  { intros l' Heq. rewrite Heq in Hm. set_solver. }
  clear Hm. rewrite <- Hl.
  destruct m as [folder endpoint options|folder endpoint ? ? ? options|op
                 | | | | | | | | | | | | | | |]; simpl in *.
  3: destruct op; simpl.
  all: match goal with
       | |- heap (?run ?st').2 !! _ = _ =>
           enough (guards {[l]} (λ _, True) run) as Hguards
             by (by apply (Hguards st' HD))
       end.
  all: unfold_methods;
    repeat match goal with
           | |- context [match ?o with Some _ => _ | None => _ end] =>
               destruct o as [l0|];
               [try (specialize (Hm' l0 eq_refl))|]
           end;
    repeat guards_step.
Qed.

(** ** Which calls are made, and how many *)

Ltac emits_rule :=
  first
    [ apply emits_ret | apply emits_lift | apply emits_new_dict
    | apply emits_print | apply emits_setitem | apply emits_set_app_guid
    | apply emits_get_all; by intros
    | apply emits_get_one_raw; by intros
    | apply emits_update; by intros
    | apply emits_for_in; intros
    | apply emits_bind; [|intros] ].

(** X10. Every collaborator call of every method goes to an endpoint built
    with the connection the facade was constructed with, and is of one kind
    per method: [update] only in [patch_job_external_data], [get_one_raw]
    only in [get_attachment], [get_all] in all the others, which therefore
    never change anything remotely. *)
Theorem calls_use_own_connection_and_one_kind self (m : Method) st :
  ∃ evs,
    calls (call_method self m st) = calls st ++ evs ∧
    Forall (λ ev, ep_conn (ev_endpoint ev) = conn self ∧
                  ev_kind ev = method_kind m) evs.
Proof.
  destruct m as [| |op| | | | | | | | | | | | | | |]; simpl.
  3: destruct op; simpl.
  all: match goal with
       | |- ∃ evs, calls (?run ?st').2 = _ ∧ Forall ?P _ =>
           enough (emits P run) as Hemits by apply Hemits
       end.
  all: unfold_methods;
    repeat match goal with
           | |- context [match ?o with Some _ => _ | None => _ end] =>
               destruct o
           end;
    by repeat emits_rule.
Qed.

Lemma within_silent {A} (m : M A) :
  (∀ st, calls (m st).2 = calls st) → within 0 m.
Proof. intros Hm st. exists []. by rewrite Hm, app_nil_r. Qed.

Lemma within_setitem l k v : within 0 (setitem l k v).
Proof.
  apply within_silent. intros st. unfold setitem. by destruct (heap st !! l).
Qed.

Lemma within_set_app_guid l app_guid : within 0 (set_app_guid l app_guid).
Proof.
  unfold set_app_guid. destruct (truthy app_guid);
    [apply within_setitem | by apply within_silent].
Qed.

Lemma within_get_all ep l : within 1 (get_all ep l).
Proof.
  intros st. unfold get_all.
  destruct (heap st !! l) as [q|]; simpl.
  - by eexists [_].
  - exists []. rewrite app_nil_r. split; [done | simpl; lia].
Qed.

Lemma within_get_one_raw ep id : within 1 (get_one_raw ep id).
Proof.
  intros st. unfold get_one_raw.
  destruct (Endpoint_get_one_raw ep id (world st)) as [r w]; simpl.
  by eexists [_].
Qed.

Lemma within_update ep id payload request_type :
  within 1 (update ep id payload request_type).
Proof.
  intros st. unfold update.
  destruct (Endpoint_update ep id payload request_type (world st)) as [r w];
    simpl.
  by eexists [_].
Qed.

Lemma within_bind {A B} n n' (m : M A) (k : A → M B) :
  within n m → (∀ a, within n' (k a)) → within (n + n') (let! x := m in k x).
Proof.
  intros Hm Hk st. destruct (Hm st) as (evs & Hcalls & Hlen).
  unfold bind. destruct (m st) as [[a|e] st1]; simpl in *.
  - destruct (Hk a st1) as (evs' & Hcalls' & Hlen').
    exists (evs ++ evs'). rewrite Hcalls', Hcalls, <- app_assoc.
    split; [done|]. rewrite length_app. lia.
  - exists evs. split; [done | lia].
Qed.

Lemma within_for_in {A B} n (xs : list A) (body : B → A → M B) acc :
  (∀ acc x, within n (body acc x)) →
  within (length xs * n) (for_in xs acc body).
Proof.
  intros Hbody. revert acc.
  induction xs as [|x xs IH]; intros acc; simpl.
  - by apply within_silent.
  - apply within_bind; [apply Hbody | apply IH].
Qed.

Lemma within_mono {A} n n' (m : M A) :
  within n m → (n ≤ n')%nat → within n' m.
Proof.
  intros Hm Hle st. destruct (Hm st) as (evs & Hcalls & Hlen).
  exists evs. split; [done | lia].
Qed.

Ltac within_step :=
  first
    [ apply within_setitem | apply within_set_app_guid
    | apply within_get_all | apply within_get_one_raw | apply within_update
    | apply within_for_in; intros
    | apply within_bind; [|intros]
    | by apply within_silent ].

(** X11. A call of a method makes at most one collaborator call, except the
    two per-status operations, which make at most one per status. *)
Theorem methods_stay_within_request_budget self (m : Method) st :
  ∃ evs,
    calls (call_method self m st) = calls st ++ evs ∧
    (length evs ≤ request_budget m)%nat.
Proof.
  destruct m as [| |op| | | | | | | | | | | | | | |]; simpl.
  3: destruct op; simpl.
  all: try solve [rewrite total_sales_run; simpl; by eexists [_]].
  all: match goal with
       | |- ∃ evs, calls (?run ?st').2 = _ ∧ (_ ≤ ?n)%nat =>
           enough (within n run) as Hwithin by apply Hwithin
       end.
  all: unfold_methods;
    repeat match goal with
           | |- context [match ?o with Some _ => _ | None => _ end] =>
               destruct o
           end;
    (eapply within_mono; [repeat within_step | simpl; lia]).
Qed.

End further.





(** * The properties on the test double *)

Section examples.
#[local] Existing Instance mock_floats.
#[local] Existing Instance mock_types.
#[local] Existing Instance mock.

(** Statuses A and B against pages of one and of two records: two fetches,
    and A's record before B's. *)
Lemma jobs_completed_a_then_b :
  let run :=
    get_jobs_completed_between mock_self "2024-01-01" "2024-01-31"
      (Some [VStr "A"; VStr "B"]) VNone
      (mock_state [Ok [VStr "a1"]; Ok [VStr "b1"; VStr "b2"]]) in
  run.1 = Ok [VStr "a1"; VStr "b1"; VStr "b2"] ∧
  length (calls run.2) = 2%nat.
Proof.
  destruct (per_status_operations_fetch_in_order mock_self
      "2024-01-01" "2024-01-31" (Some [VStr "A"; VStr "B"]) VNone
      (mock_state [Ok [VStr "a1"]; Ok [VStr "b1"; VStr "b2"]]))
    as [(evs & Hcalls & _ & Hall) _].
  vm_compute in Hcalls. subst evs.
  destruct (Hall eq_refl) as [_ Hres].
  split; [exact Hres | reflexivity].
Defined.

(** An empty mapping passed explicitly: the fetch is unfiltered, and nothing
    is printed. *)
Lemma explicit_empty_options_print_nothing :
  let st := caller_state ∅ in
  let run := get_api_data mock_self "jpm" "jobs" (Some 3%nat) None st in
  heap st !! 3%nat = Some ∅ ∧
  stdout run.2 = [] ∧
  calls run.2 =
    [EvGetAll (mk_endpoint mock_self "jpm" "jobs" (Some (VerInt 2))) ∅ (Ok [])].
Proof. by vm_compute. Qed.

(** No options at all: the warning, then the same fetch. *)
Lemma absent_options_warn_and_fetch :
  let st := caller_state ∅ in
  let run := get_api_data mock_self "jpm" "jobs" None None st in
  let given := get_api_data mock_self "jpm" "jobs" (Some 3%nat) None st in
  stdout run.2 =
    ["WARNING: You have not put any options in so this will call EVERYTHING! Endpoint: jpm, jobs"] ∧
  calls run.2 = calls given.2 ∧
  run.1 = Ok [] ∧ given.1 = Ok [] ∧ stdout given.2 = [].
Proof.
  destruct (get_api_data_warns_without_options mock_self "jpm" "jobs" None
      (caller_state ∅)) as [(Hout & Hcalls & Hres) Hgiven].
  destruct (Hgiven 3%nat ∅ eq_refl) as (Hout' & Hcalls' & Hres').
  exact (conj Hout (conj (eq_trans Hcalls (eq_sym Hcalls'))
           (conj Hres (conj Hres' Hout')))).
Defined.

(** What [get_sold_estimates_between] and [get_payments_between] send: the
    lower bounds are [soldAfter] and [paidOnAfter], and no key of either
    query ends in "OnOrAfter". *)
Lemma sold_estimates_and_payments_send_no_on_or_after :
  let sold :=
    get_sold_estimates_between mock_self "2024-01-01" "2024-01-31"
      (mock_state []) in
  let paid :=
    get_payments_between mock_self "2024-01-01" "2024-01-31" (mock_state []) in
  ∃ q q',
    map ev_query (calls sold.2) = [Some q] ∧
    map ev_query (calls paid.2) = [Some q'] ∧
    q !! "soldAfter" = Some (VStr "2024-01-01T00:00:00+10:00") ∧
    q' !! "paidOnAfter" = Some (VStr "2024-01-01T00:00:00+10:00") ∧
    has_key_ending "OnOrAfter" q = false ∧
    has_key_ending "OnOrAfter" q' = false.
Proof. eexists _, _. by vm_compute. Qed.

(** The spec's example: 10 + 5 + 3. *)
Lemma total_sales_of_two_records :
  (get_total_sales_between mock_self "2024-01-01" "2024-01-31"
     (mock_state [Ok sold_rows])).1 = Ok (VInt 18).
Proof.
  destruct (total_sales_sums_line_totals mock_self "2024-01-01" "2024-01-31"
      (mock_state [Ok sold_rows])) as (_ & _ & _ & Hints & _).
  apply (Hints sold_rows [10; 5; 3]%Z eq_refl).
  exists [[VDict [("total", VInt 10)]; VDict [("total", VInt 5)]];
          [VDict [("total", VInt 3)]]].
  split.
  - repeat constructor; by eexists.
  - repeat constructor; by eexists.
Defined.

(** One technician found, and none. *)
Lemma technician_found_and_not_found :
  let tech := VDict [("id", VInt 12334456); ("name", VStr "Sam")] in
  (get_technician_by_id mock_self (VInt 12334456) (mock_state [Ok [tech]])).1
    = Ok tech ∧
  (get_technician_by_id mock_self (VInt 12334456) (mock_state [Ok []])).1
    = Raise IndexError.
Proof.
  split.
  - destruct (technician_by_id_takes_first mock_self (VInt 12334456)
        (mock_state [Ok [VDict [("id", VInt 12334456); ("name", VStr "Sam")]]]))
      as (_ & _ & Hone & _).
    exact (Hone _ eq_refl).
  - destruct (technician_by_id_takes_first mock_self (VInt 12334456)
        (mock_state [Ok []])) as (_ & _ & _ & Hnone).
    exact (Hnone eq_refl).
Defined.

(** The stale bound is overwritten, the other filter is kept, and the merged
    mapping is what is fetched with. *)
Lemma between_merges_callers_options :
  let st := caller_state callers_options in
  let run :=
    get_api_data_between mock_self "jpm" "jobs" "2024-01-01" "2024-01-31"
      None (Some 3%nat) None st in
  options_given st (Some 3%nat) = Some callers_options ∧
  run.1 = Ok [] ∧
  calls run.2 =
    [EvGetAll (mk_endpoint mock_self "jpm" "jobs" (Some (VerInt 2)))
       merged_options (Ok [])] ∧
  stdout run.2 = [].
Proof.
  split; [reflexivity|].
  destruct (get_api_data_between_merges_date_keys mock_self "jpm" "jobs"
      "2024-01-01" "2024-01-31" None (Some 3%nat) None callers_options
      (caller_state callers_options) eq_refl)
    as (_ & _ & _ & _ & _ & Hres & Hcalls & Hout).
  refine (conj Hres (conj _ Hout)).
  etransitivity; [exact Hcalls|]. by vm_compute.
Defined.

(** After the call the caller's own object holds the two date keys. *)
Lemma between_leaves_date_keys_in_callers_options :
  let st := caller_state callers_options in
  let run :=
    get_api_data_between mock_self "jpm" "jobs" "2024-01-01" "2024-01-31"
      None (Some 3%nat) None st in
  heap st !! 3%nat = Some callers_options ∧
  heap run.2 !! 3%nat = Some merged_options ∧
  dom (heap run.2) = dom (heap st).
Proof.
  split; [reflexivity|].
  pose proof (get_api_data_between_writes_callers_mapping mock_self
      "jpm" "jobs" "2024-01-01" "2024-01-31" None 3%nat None callers_options
      (caller_state callers_options) eq_refl) as Hkeys.
  cbv zeta in Hkeys.
  destruct Hkeys as (_ & Hdom & _ & Hsame & _).
  split; [|exact Hdom].
  etransitivity; [apply Hsame|]; by vm_compute.
Defined.

(** The ids of the docstring examples are ints. *)
Lemma int_ids_raise_type_error :
  let ids := [VInt 123456; VInt 5634765894] in
  let st := mock_state [] in
  VInt 123456 ∈ ids ∧ is_str (VInt 123456) = false ∧
  get_invoices_by_id mock_self ids st = (Raise TypeError, st) ∧
  get_payments_for_invoices mock_self ids st = (Raise TypeError, st).
Proof.
  assert (VInt 123456 ∈ [VInt 123456; VInt 5634765894]) as Hin by left.
  destruct (join_of_non_string_ids_raises mock_self
      [VInt 123456; VInt 5634765894] (VInt 123456) (mock_state [])
      Hin eq_refl) as (Hinv & Hpay & _).
  exact (conj Hin (conj eq_refl (conj Hinv Hpay))).
Defined.

End examples.

(** * The further properties on the test double *)

Section further_examples.
#[local] Existing Instance mock_floats.
#[local] Existing Instance mock_types.
#[local] Existing Instance mock.

(** A line item whose total is the string "n/a", after one of 10. *)
Lemma total_sales_of_a_string_total :
  let rows :=
    [VDict [("items", VList [VDict [("total", VInt 10)];
                             VDict [("total", VStr "n/a")]])]] in
  line_totals rows [VInt 10; VStr "n/a"] ∧
  (get_total_sales_between mock_self "2024-01-01" "2024-01-31"
     (mock_state [Ok rows])).1 = Raise TypeError.
Proof.
  assert (line_totals
    [VDict [("items", VList [VDict [("total", VInt 10)];
                             VDict [("total", VStr "n/a")]])]]
    [VInt 10; VStr "n/a"]) as Htotals.
  { exists [[VDict [("total", VInt 10)]; VDict [("total", VStr "n/a")]]].
    split; repeat constructor; by eexists. }
  assert (VStr "n/a" ∈ [VInt 10; VStr "n/a"]) as Hin by (right; left).
  split; [exact Htotals|].
  pose proof (total_sales_rejects_non_numeric_total mock_self
      "2024-01-01" "2024-01-31"
      (mock_state
         [Ok [VDict [("items", VList [VDict [("total", VInt 10)];
                                      VDict [("total", VStr "n/a")]])]]])
      [VDict [("items", VList [VDict [("total", VInt 10)];
                               VDict [("total", VStr "n/a")]])]]
      [VInt 10; VStr "n/a"] (VStr "n/a")) as Hraise.
  cbv zeta in Hraise.
  destruct Hraise as [Hraise|Hraise];
    [by vm_compute | exact Htotals | exact Hin | reflexivity | |].
  - exact Hraise.
  - exfalso. vm_compute in Hraise. discriminate Hraise.
Defined.

(** A mapping bounded by "created" and then used for "modified": the second
    request still carries the created bounds. *)
Lemma created_bounds_resent_with_modified :
  let st := caller_state callers_options in
  let first :=
    get_api_data_between mock_self "jpm" "jobs" "2024-01-01" "2024-01-31"
      (Some "created") (Some 3%nat) None st in
  let second :=
    get_api_data_between mock_self "jpm" "jobs" "2024-02-01" "2024-02-29"
      (Some "modified") (Some 3%nat) None first.2 in
  heap st !! 3%nat = Some callers_options ∧
  ∃ q reply,
    calls second.2 =
      calls first.2 ++
      [EvGetAll (mk_endpoint mock_self "jpm" "jobs" (Some (VerInt 2))) q reply] ∧
    q !! "createdOnOrAfter" = Some (VStr "2024-01-01T00:00:00+10:00") ∧
    q !! "createdBefore" = Some (VStr "2024-01-31T00:00:00+10:00") ∧
    q !! "modifiedOnOrAfter" = Some (VStr "2024-02-01T00:00:00+10:00").
Proof.
  split; [reflexivity|].
  pose proof (between_twice_resends_first_bounds mock_self "jpm" "jobs"
      "2024-01-01" "2024-01-31" "2024-02-01" "2024-02-29"
      (Some "created") (Some "modified") 3%nat None callers_options
      (caller_state callers_options) eq_refl) as Htwice.
  cbv zeta in Htwice.
  destruct Htwice as [(reply & Hcalls) _]; [by vm_compute|].
  eexists _, reply. split; [exact Hcalls|]. by vm_compute.
Defined.

(** The caller's mapping after a per-status operation and after a call of
    [get_api_data_between] on a mapping of its own. *)
Lemma callers_options_survive_other_calls :
  let st := caller_state callers_options in
  heap st !! 3%nat = Some callers_options ∧
  heap (call_method mock_self
          (@GetBetween mock_floats mock_types
             (JobsCompleted None (VStr "guid"))
             "2024-01-01" "2024-01-31") st) !! 3%nat
    = Some callers_options ∧
  heap (call_method mock_self
          (@GetApiDataBetween mock_floats mock_types "jpm" "jobs" "2024-01-01" "2024-01-31" None None)
          st) !! 3%nat
    = Some callers_options.
Proof.
  split; [reflexivity|]. split.
  - apply (callers_mappings_are_left_alone mock_self
             (@GetBetween mock_floats mock_types
             (JobsCompleted None (VStr "guid"))
                "2024-01-01" "2024-01-31")
             3%nat callers_options (caller_state callers_options) eq_refl).
    discriminate.
  - apply (callers_mappings_are_left_alone mock_self
             (@GetApiDataBetween mock_floats mock_types "jpm" "jobs" "2024-01-01" "2024-01-31"
                None None)
             3%nat callers_options (caller_state callers_options) eq_refl).
    discriminate.
Defined.

(** An empty start date is rejected: the formatter's exception, and no
    request, although four statuses were to be fetched. *)
Lemma rejected_start_date_makes_no_request :
  let st := mock_state [Ok [VStr "a"]] in
  get_jobs_completed_between_unchecked mock_accept_date mock_self
    "" "2024-01-31" None VNone st
  = (Raise (ExternalError "no date"), st).
Proof.
  pose proof (per_status_operations_fail_fast mock_accept_date mock_self
      "" "2024-01-31" None VNone (mock_state [Ok [VStr "a"]])) as Hcases.
  cbv zeta in Hcases.
  destruct Hcases as [(evs & _ & _ & Hcase) _].
  exact (proj1 Hcase).
Defined.

End further_examples.
